(** * scripts/render.py: page-range parser and PDF-to-PNG exporter

    A shallow embedding of [parse_pages], [render] and [main] from
    [scripts/render.py] (the first two appear again in [src/utils.py]
    as [parse_page_ranges] and [render_pdf_to_images]), together with the
    Python built-ins they call.

    Conventions of the model:
    - a Python [str] is a [string]; each [ascii] is the code point of one
      character, so the strings covered are those with code points
      below 256;
    - a Python [int] is a [Z]; the interpreter's optional cap on the length
      of a decimal literal handed to [int()] is taken as switched off;
    - a Python [float] is the rational it stands for: the conversion of
      an [int] raises where the interpreter's does, rounding is left
      out;
    - a Python [set] of ints is a [gset Z], [sorted] is a merge sort of its
      elements;
    - an exception is a value of [exn]; a call that may raise returns a
      [res];
    - the file system is a finite map from path strings to nodes, with
      POSIX path functions ([posixpath]); paths are used as written, a
      write fails only for what is at the path or at its directory, and
      the entries of a directory are the paths whose [dirname] it is;
    - the rendering library (PyMuPDF) is an interface, [Fitz], whose
      methods may fail. *)

From Stdlib Require Import ZArith Ascii String List Lia Bool QArith.
From Stdlib Require Import DecimalString Decimal DecimalZ DecimalPos.
From stdpp Require Import base tactics option list sorting gmap strings.

Local Open Scope Z_scope.

(** ** Exceptions and results *)

Inductive exn : Type :=
| ValueError_int (literal : string)
    (* raised by int(literal): invalid literal for int() with base 10 *)
| ValueError (msg : string)
    (* raise ValueError(msg) *)
| FileNotFoundError (msg : string)
    (* raise FileNotFoundError(msg), or open() on a missing path *)
| NotADirectoryError (path : string)
    (* a path component that is not a directory *)
| IsADirectoryError (path : string)
    (* open(path, "wb") on a directory *)
| FileExistsError (path : string)
    (* os.makedirs(path) on an existing path *)
| OverflowError
    (* int too large to convert to float *)
| FitzError.
    (* any exception raised inside the rendering library *)

Inductive res (A : Type) : Type :=
| Ok (a : A)
| Err (e : exn).
Arguments Ok {A} a.
Arguments Err {A} e.

Global Instance res_ret : MRet res := λ A a, Ok a.
Global Instance res_bind : MBind res := λ A B k r,
  match r with
  | Ok a => k a
  | Err e => Err e
  end.

Definition is_ValueError (e : exn) : bool :=
  match e with
  | ValueError_int _ | ValueError _ => true
  | _ => false
  end.

(** ** Python string built-ins *)

Module Py.

(** [ord(c)] *)
Definition ord (c : ascii) : N := N_of_ascii c.

(** [str.isspace] for one character: the characters [str.strip()]
    removes. *)
Definition isspace (c : ascii) : bool :=
  let n := ord c in
  ((9 <=? n) && (n <=? 13) || (28 <=? n) && (n <=? 32)
   || (n =? 133) || (n =? 160))%N.

(** The characters [int()] skips around a literal: the C locale's white
    space, and the non-ASCII spaces, which [int()] first turns into a
    blank. *)
Definition int_space (c : ascii) : bool :=
  let n := ord c in
  ((9 <=? n) && (n <=? 13) || (n =? 32) || (n =? 133) || (n =? 160))%N.

Definition isdigit (c : ascii) : bool :=
  let n := ord c in ((48 <=? n) && (n <=? 57))%N.

Definition digit_value (c : ascii) : Z := Z.of_N (ord c) - 48.

Fixpoint lstrip (s : string) : string :=
  match s with
  | String c r => if isspace c then lstrip r else s
  | EmptyString => EmptyString
  end.

Fixpoint rstrip (s : string) : string :=
  match s with
  | String c r =>
      match rstrip r with
      | EmptyString => if isspace c then EmptyString else String c EmptyString
      | r' => String c r'
      end
  | EmptyString => EmptyString
  end.

(** [s.strip()] *)
Definition strip (s : string) : string := rstrip (lstrip s).

(** [all(f(c) for c in s)] *)
Fixpoint all_chars (f : ascii → bool) (s : string) : bool :=
  match s with
  | String c r => f c && all_chars f r
  | EmptyString => true
  end.

(** [s.count(sep)] for a one-character [sep] *)
Fixpoint count (sep : ascii) (s : string) : nat :=
  match s with
  | String c r => (if Ascii.eqb c sep then 1 else 0) + count sep r
  | EmptyString => 0
  end.

(** [sep in s] for a one-character [sep] *)
Fixpoint contains (sep : ascii) (s : string) : bool :=
  match s with
  | String c r => if Ascii.eqb c sep then true else contains sep r
  | EmptyString => false
  end.

(** [s.split(sep)] for a one-character [sep] *)
Fixpoint split (sep : ascii) (s : string) : list string :=
  match s with
  | String c r =>
      if Ascii.eqb c sep then EmptyString :: split sep r
      else match split sep r with
           | h :: t => String c h :: t
           | [] => [String c EmptyString]
           end
  | EmptyString => [EmptyString]
  end.

(** [s.split(sep, 1)] when [sep in s]: the text before and after the
    first [sep]; [None] when [sep] does not occur. *)
Fixpoint split1 (sep : ascii) (s : string) : option (string * string) :=
  match s with
  | String c r =>
      if Ascii.eqb c sep then Some (EmptyString, r)
      else match split1 sep r with
           | Some (a, b) => Some (String c a, b)
           | None => None
           end
  | EmptyString => None
  end.

(** The digits of a literal, after the sign: decimal digits with single
    underscores between them.  [seen] tells that a digit was read, [us]
    that the last character was an underscore.  Returns the value and
    the unread rest of the string. *)
Fixpoint int_digits (seen us : bool) (acc : Z) (s : string)
  : option (Z * string) :=
  match s with
  | String c r =>
      if isdigit c then int_digits true false (10 * acc + digit_value c) r
      else if Ascii.eqb c "_" then
        if us || negb seen then None else int_digits seen true acc r
      else if us || negb seen then None else Some (acc, s)
  | EmptyString => if us || negb seen then None else Some (acc, s)
  end.

Fixpoint skip_space (s : string) : string :=
  match s with
  | String c r => if int_space c then skip_space r else s
  | EmptyString => EmptyString
  end.

Definition int_signed (s : string) : Z * string :=
  match s with
  | String "+" r => (1, r)
  | String "-" r => (-1, r)
  | _ => (1, s)
  end.

(** [int(s)] for a [str] argument, base 10: optional white space, an
    optional sign, the digits, optional white space, nothing else. *)
Definition int (s : string) : res Z :=
  let '(sign, body) := int_signed (skip_space s) in
  match int_digits false false 0 body with
  | Some (v, rest) =>
      match skip_space rest with
      | EmptyString => Ok (sign * v)
      | _ => Err (ValueError_int s)
      end
  | None => Err (ValueError_int s)
  end.

(** [str(z)] for an int *)
Definition str (z : Z) : string := NilZero.string_of_int (Z.to_int z).

(** [format(z, "02d")]: the decimal digits, zero-filled after the sign
    up to a total width of 2. *)
Definition format_02d (z : Z) : string :=
  let s := str z in
  if (String.length s <? 2)%nat then String "0" s else s.

(** [list(range(a, b))] *)
Definition range (a b : Z) : list Z := seqZ a (b - a).

(** [sorted(out)] for a set of ints *)
Definition sorted (out : gset Z) : list Z := merge_sort Z.le (elements out).

(** The ints that round to a finite double: those below
    [2**1024 - 2**970] in absolute value. *)
Definition float_limit : Z := 2 ^ 1024 - 2 ^ 970.

Definition float_fits (n : Z) : bool := Z.abs n <? float_limit.

(** [n / d] for an int [n] and a float [d] that is not zero: [n] is
    converted to a float first. *)
Definition truediv (n : Z) (d : Q) : res Q :=
  if float_fits n then Ok (inject_Z n / d)%Q else Err OverflowError.

End Py.

(** ** [parse_pages] *)

(** The body of the loop over [pages_arg.split(",")], from the line after
    [part = part.strip()]: [out] is the set built so far, the result is
    the set after this [part]. *)
Definition parse_token (num_pages : Z) (out : gset Z) (part : string)
  : res (gset Z) :=
  if Py.contains "-" part then
    match Py.split1 "-" part with
    | Some (a, b) =>
        a ← Py.int a;
        b ← Py.int b;
        if (a <? 1) || (b <? 1) || (a >? num_pages) || (b >? num_pages)
           || (a >? b)
        then Err (ValueError ("Invalid page range: " +:+ part))
        else Ok (out ∪ list_to_set (Py.range a (b + 1)))
    | None =>
        (* a, b = [part]: the unpacking raises *)
        Err (ValueError "not enough values to unpack (expected 2, got 1)")
    end
  else
    p ← Py.int part;
    if (p <? 1) || (p >? num_pages)
    then Err (ValueError ("Invalid page number: " +:+ Py.str p))
    else Ok ({[ p ]} ∪ out).

(** One turn of the loop. *)
Definition parse_part (num_pages : Z) (out : gset Z) (part : string)
  : res (gset Z) :=
  let part := Py.strip part in
  parse_token num_pages out part.

Fixpoint parse_loop (num_pages : Z) (out : gset Z) (parts : list string)
  : res (gset Z) :=
  match parts with
  | [] => Ok out
  | part :: rest =>
      out' ← parse_part num_pages out part;
      parse_loop num_pages out' rest
  end.

(** [not pages_arg]: true for [None] and for the empty string. *)
Definition falsy (pages_arg : option string) : bool :=
  match pages_arg with
  | None | Some EmptyString => true
  | Some _ => false
  end.

Definition parse_pages (pages_arg : option string) (num_pages : Z)
  : res (list Z) :=
  if falsy pages_arg then Ok (Py.range 1 (num_pages + 1))
  else
    out ← parse_loop num_pages ∅ (Py.split "," (default "" pages_arg));
    Ok (Py.sorted out).

(** ** Classes of tokens

    The tokens are the parts of [pages_arg.split(",")], each taken after
    [strip()]. *)

(** The characters a decimal literal can be written with. *)
Definition literal_char (c : ascii) : bool :=
  Py.isdigit c || Py.int_space c || Ascii.eqb c "+" || Ascii.eqb c "-"
  || Ascii.eqb c "_".

(** A token that is well formed but names pages that are not there,
    with the exception it is answered with. *)
Inductive out_of_range (num_pages : Z) (part : string) : exn → Prop :=
| page_out_of_range p :
    Py.contains "-" part = false →
    Py.int part = Ok p →
    ¬ (1 ≤ p ≤ num_pages) →
    out_of_range num_pages part
      (ValueError ("Invalid page number: " +:+ Py.str p))
| range_out_of_range sa sb a b :
    Py.split1 "-" part = Some (sa, sb) →
    Py.int sa = Ok a →
    Py.int sb = Ok b →
    ¬ (1 ≤ a ∧ a ≤ b ∧ b ≤ num_pages) →
    out_of_range num_pages part
      (ValueError ("Invalid page range: " +:+ part)).

(** A token that is neither a page number nor a range of two page
    numbers. *)
Inductive malformed : string → Prop :=
| malformed_empty :
    malformed EmptyString
| malformed_non_numeric part :
    Py.contains "-" part = false →
    Py.all_chars literal_char part = false →
    malformed part
| malformed_not_literal part e :
    Py.contains "-" part = false →
    Py.int part = Err e →
    malformed part
| malformed_leading_hyphen rest :
    malformed (String "-" rest)
| malformed_multi_hyphen part :
    (2 ≤ Py.count "-" part)%nat →
    malformed part
| malformed_range_side part sa sb e :
    Py.split1 "-" part = Some (sa, sb) →
    Py.int sa = Err e ∨ Py.int sb = Err e →
    malformed part.

(** Token [part] selects page [p]: it is the number [p], or a range that
    holds [p]. *)
Definition selects (part : string) (p : Z) : Prop :=
  (Py.contains "-" part = false ∧ Py.int part = Ok p) ∨
  (∃ sa sb a b,
     Py.split1 "-" part = Some (sa, sb) ∧
     Py.int sa = Ok a ∧ Py.int sb = Ok b ∧ a ≤ p ≤ b).

(** ** POSIX path functions ([os.path]) *)

Module Path.

(** The text before and after the last [sep] of [s]; [None] when [sep]
    does not occur ([s.rfind(sep) == -1]). *)
Fixpoint split_last (sep : ascii) (s : string) : option (string * string) :=
  match s with
  | String c r =>
      match split_last sep r with
      | Some (a, b) => Some (String c a, b)
      | None => if Ascii.eqb c sep then Some (EmptyString, r) else None
      end
  | EmptyString => None
  end.

Fixpoint rstrip_char (x : ascii) (s : string) : string :=
  match s with
  | String c r =>
      match rstrip_char x r with
      | EmptyString =>
          if Ascii.eqb c x then EmptyString else String c EmptyString
      | r' => String c r'
      end
  | EmptyString => EmptyString
  end.

Definition startswith (x : ascii) (s : string) : bool :=
  match s with
  | String c _ => Ascii.eqb c x
  | EmptyString => false
  end.

Fixpoint endswith (x : ascii) (s : string) : bool :=
  match s with
  | String c EmptyString => Ascii.eqb c x
  | String _ r => endswith x r
  | EmptyString => false
  end.

(** [os.path.basename(p)]: what follows the last slash. *)
Definition basename (p : string) : string :=
  match split_last "/" p with
  | Some (_, tail) => tail
  | None => p
  end.

(** [os.path.dirname(p)]: what precedes the last slash, without its
    trailing slashes unless it consists of slashes only. *)
Definition dirname (p : string) : string :=
  match split_last "/" p with
  | Some (head, _) =>
      if Py.all_chars (Ascii.eqb "/") head then head +:+ "/"
      else rstrip_char "/" head
  | None => EmptyString
  end.

(** [os.path.splitext(p)]: split at the last dot of the last path
    component, unless only dots precede it there. *)
Definition splitext (p : string) : string * string :=
  let '(dir, name) :=
    match split_last "/" p with
    | Some (head, tail) => (head +:+ "/", tail)
    | None => (EmptyString, p)
    end in
  match split_last "." name with
  | Some (stem, ext) =>
      if Py.all_chars (Ascii.eqb ".") stem then (p, EmptyString)
      else (dir +:+ stem, String "." ext)
  | None => (p, EmptyString)
  end.

(** [os.path.join(a, b)] *)
Definition join (a b : string) : string :=
  if startswith "/" b then b
  else if (String.eqb a EmptyString) || endswith "/" a then a +:+ b
  else a +:+ "/" +:+ b.

End Path.

(** ** The world: file system and open documents *)

Definition bytes : Type := list Byte.byte.

Inductive node : Type :=
| File (data : bytes)
| Dir.

(** [fs] maps the paths that exist to what they hold.  [open_docs] holds
    the handles of the documents that are open, [next_doc] is the handle
    the next [fitz.open] hands out. *)
Record world : Type := World {
  fs : gmap string node;
  open_docs : gset nat;
  next_doc : nat
}.

(** A computation reads and changes the world and returns a value or
    raises; what it changed before raising stays changed. *)
Definition M (A : Type) : Type := world → res A * world.

Global Instance M_ret : MRet M := λ A a w, (Ok a, w).
Global Instance M_bind : MBind M := λ A B k m w,
  match m w with
  | (Ok a, w') => k a w'
  | (Err e, w') => (Err e, w')
  end.

Definition raise {A} (e : exn) : M A := λ w, (Err e, w).
Definition lift {A} (r : res A) : M A := λ w, (r, w).

Module Os.

Definition path_isfile (p : string) : M bool := λ w,
  (Ok match fs w !! p with Some (File _) => true | _ => false end, w).

Definition path_exists (p : string) : M bool := λ w,
  (Ok match fs w !! p with Some _ => true | None => false end, w).

Definition makedirs (p : string) : M unit := λ w,
  match fs w !! p with
  | Some _ => (Err (FileExistsError p), w)
  | None => (Ok (), World (<[p := Dir]> (fs w)) (open_docs w) (next_doc w))
  end.

(** The directory [p] has an entry: some other path of the file system
    has [p] as its [dirname]. *)
Definition has_entries (p : string) (m : gmap string node) : bool :=
  bool_decide (map_Exists (λ q _, q ≠ p ∧ Path.dirname q = p) m).

(** [open(p, "rb").read()] *)
Definition read_file (p : string) : M bytes := λ w,
  match fs w !! p with
  | Some (File data) => (Ok data, w)
  | Some Dir => (Err (IsADirectoryError p), w)
  | None => (Err (FileNotFoundError p), w)
  end.

(** [open(p, "wb").write(data)]: creates or replaces the file [p]; the
    directory it goes into has to exist (the empty [dirname] is the
    working directory). *)
Definition write_file (p : string) (data : bytes) : M unit := λ w,
  let put := (Ok (), World (<[p := File data]> (fs w)) (open_docs w)
                           (next_doc w)) in
  match fs w !! p with
  | Some Dir => (Err (IsADirectoryError p), w)
  | _ =>
      if String.eqb (Path.dirname p) EmptyString then put
      else match fs w !! Path.dirname p with
           | Some Dir => put
           | Some (File _) => (Err (NotADirectoryError p), w)
           | None => (Err (FileNotFoundError p), w)
           end
  end.

End Os.

(** ** The rendering library

    What [render] uses of PyMuPDF.  A method that may raise returns an
    [option], [None] standing for an exception raised inside the
    library. *)
Class Fitz : Type := {
  Document : Type;
  Page : Type;
  Pixmap : Type;
  (** what [fitz.open] makes of the bytes of a file *)
  fitz_load : bytes → option Document;
  (** [doc.page_count] *)
  page_count : Document → Z;
  (** [doc[i]] *)
  load_page : Document → Z → option Page;
  (** [page.get_pixmap(matrix=fitz.Matrix(zoom, zoom), alpha=False)] *)
  get_pixmap : Page → Q → option Pixmap;
  (** [pix.n], the number of channels *)
  pixmap_n : Pixmap → Z;
  (** [fitz.Pixmap(fitz.csGRAY, pix)] *)
  to_gray : Pixmap → Pixmap;
  (** the bytes [pix.save(path)] writes for a [.png] path *)
  png_bytes : Pixmap → bytes
}.

Section render.
Context `{Fitz}.

(** An open document: its handle and what was loaded. *)
Record doc : Type := Doc { handle : nat; loaded : Document }.

(** [fitz.open(path)] *)
Definition fitz_open (path : string) : M doc := λ w,
  match fs w !! path with
  | Some (File data) =>
      match fitz_load data with
      | Some d =>
          (Ok (Doc (next_doc w) d),
           World (fs w) ({[ next_doc w ]} ∪ open_docs w) (S (next_doc w)))
      | None => (Err FitzError, w)
      end
  | _ => (Err FitzError, w)
  end.

(** [doc.close()] *)
Definition doc_close (d : doc) : M unit := λ w,
  (Ok (), World (fs w) (open_docs w ∖ {[ handle d ]}) (next_doc w)).

(** [doc[i]] *)
Definition doc_getitem (d : doc) (i : Z) : M Page :=
  lift (from_option Ok (Err FitzError) (load_page (loaded d) i)).

(** [page.get_pixmap(matrix=mat, alpha=False)] *)
Definition page_get_pixmap (page : Page) (zoom : Q) : M Pixmap :=
  lift (from_option Ok (Err FitzError) (get_pixmap page zoom)).

(** [pix.save(out_path)]: the library removes what is at the path, a
    file or a directory without entries, and creates the file anew in
    the directory it goes into (the empty [dirname] is the working
    directory); what goes wrong is raised as the library's exception. *)
Definition pix_save (pix : Pixmap) (out_path : string) : M unit := λ w,
  let put := (Ok (), World (<[out_path := File (png_bytes pix)]> (fs w))
                           (open_docs w) (next_doc w)) in
  let at_path :=
    match fs w !! out_path with
    | Some Dir =>
        if Os.has_entries out_path (fs w) then (Err FitzError, w) else put
    | _ => put
    end in
  if String.eqb (Path.dirname out_path) EmptyString then at_path
  else match fs w !! Path.dirname out_path with
       | Some Dir => at_path
       | _ => (Err FitzError, w)
       end.

(** The name of the file of page [page_num]. *)
Definition out_path (single_output : bool) (folder_name base : string)
    (page_num : Z) : string :=
  if single_output
  then Path.join folder_name (Path.basename base +:+ ".png")
  else Path.join folder_name
         (Path.basename base +:+ "_p" +:+ Py.format_02d page_num +:+ ".png").

(** The bytes the loop writes for page [page_num]: what the three
    library calls of one turn yield, [None] when one of them raises. *)
Definition page_png (d : Document) (zoom : Q) (grayscale : bool)
    (page_num : Z) : option bytes :=
  page ← load_page d (page_num - 1);
  pix ← get_pixmap page zoom;
  Some (png_bytes
          (if grayscale && (pixmap_n pix >? 1) then to_gray pix else pix)).

(** The last component of [out_path]. *)
Definition png_name (single_output : bool) (base : string) (page_num : Z)
  : string :=
  if single_output then Path.basename base +:+ ".png"
  else Path.basename base +:+ "_p" +:+ Py.format_02d page_num +:+ ".png".

(** The loop [for page_num in page_list], started with the list [saved]
    built so far. *)
Fixpoint render_pages (d : doc) (zoom : Q) (grayscale single_output : bool)
    (folder_name base : string) (page_list : list Z) (saved : list string)
  : M (list string) :=
  match page_list with
  | [] => mret saved
  | page_num :: rest =>
      page ← doc_getitem d (page_num - 1);
      pix ← page_get_pixmap page zoom;
      let pix :=
        if grayscale && (pixmap_n pix >? 1) then to_gray pix else pix in
      let out := out_path single_output folder_name base page_num in
      pix_save pix out;;
      render_pages d zoom grayscale single_output folder_name base rest
        (saved ++ [out])
  end.

(** The value of [dpi / 72.0]. *)
Definition zoom_of (dpi : Z) : Q := (inject_Z dpi / 72)%Q.

(** [base], from [base, _ = os.path.splitext(pdf_path)] *)
Definition base_of (pdf_path : string) : string :=
  (Path.splitext pdf_path).1.

(** [pdf_copy_path] *)
Definition pdf_copy_path_of (pdf_path : string) : string :=
  Path.join (base_of pdf_path)
    (Path.basename (base_of pdf_path) +:+ ".pdf").

(** The two places where [render] touches files other than the
    pictures: the folder made when nothing is at [base], and the source
    copied to [pdf_copy_path] when nothing is there. *)
Definition make_folder (base : string) (m : gmap string node)
  : gmap string node :=
  match m !! base with
  | Some _ => m
  | None => <[base := Dir]> m
  end.

Definition archive (pdf_path : string) (m : gmap string node)
  : gmap string node :=
  match m !! pdf_copy_path_of pdf_path, m !! pdf_path with
  | None, Some (File data) => <[pdf_copy_path_of pdf_path := File data]> m
  | _, _ => m
  end.

Definition render (pdf_path : string) (dpi : Z) (pages : option string)
    (grayscale : bool) : M (list string) :=
  isfile ← Os.path_isfile pdf_path;
  if negb isfile
  then raise (FileNotFoundError ("File not found: " +:+ pdf_path))
  else
    d ← fitz_open pdf_path;
    let n := page_count (loaded d) in
    page_list ← lift (parse_pages pages n);
    let base := base_of pdf_path in
    let folder_name := base in
    there ← Os.path_exists folder_name;
    (if negb there then Os.makedirs folder_name else mret ());;
    zoom ← lift (Py.truediv dpi 72);
    let single_output := (length page_list =? 1)%nat in
    saved ← render_pages d zoom grayscale single_output folder_name base
              page_list [];
    let pdf_copy_path := pdf_copy_path_of pdf_path in
    there ← Os.path_exists pdf_copy_path;
    (if negb there
     then data ← Os.read_file pdf_path; Os.write_file pdf_copy_path data
     else mret ());;
    doc_close d;;
    mret saved.

(** What [render] does after the loop: the copy of the source, the close
    and the return. *)
Definition finish (pdf_path : string) (d : doc) (saved : list string)
  : M (list string) :=
  there ← Os.path_exists (pdf_copy_path_of pdf_path);
  (if negb there
   then data ← Os.read_file pdf_path;
        Os.write_file (pdf_copy_path_of pdf_path) data
   else mret ());;
  doc_close d;;
  mret saved.

(** The world after [fitz.open] has handed out a handle. *)
Definition opened (w : world) : world :=
  World (fs w) ({[ next_doc w ]} ∪ open_docs w) (S (next_doc w)).

(** The world in which the loop starts. *)
Definition loop_start (pdf_path : string) (w : world) : world :=
  World (make_folder (base_of pdf_path) (fs w)) (open_docs (opened w))
    (next_doc (opened w)).

(** The ways out of [render], in the order of the code: the result and
    the world each of them leaves. *)
Inductive render_exit (pdf_path : string) (dpi : Z) (pages : option string)
    (grayscale : bool) (w : world) : res (list string) → world → Prop :=
| exit_not_a_file :
    (∀ data, fs w !! pdf_path ≠ Some (File data)) →
    render_exit pdf_path dpi pages grayscale w
      (Err (FileNotFoundError ("File not found: " +:+ pdf_path))) w
| exit_open_raises data :
    fs w !! pdf_path = Some (File data) →
    fitz_load data = None →
    render_exit pdf_path dpi pages grayscale w (Err FitzError) w
| exit_pages_raises data d e :
    fs w !! pdf_path = Some (File data) →
    fitz_load data = Some d →
    parse_pages pages (page_count d) = Err e →
    render_exit pdf_path dpi pages grayscale w (Err e) (opened w)
| exit_zoom_raises data d page_list :
    fs w !! pdf_path = Some (File data) →
    fitz_load data = Some d →
    parse_pages pages (page_count d) = Ok page_list →
    Py.float_fits dpi = false →
    render_exit pdf_path dpi pages grayscale w (Err OverflowError)
      (loop_start pdf_path w)
| exit_loop_raises data d page_list e w2 :
    fs w !! pdf_path = Some (File data) →
    fitz_load data = Some d →
    parse_pages pages (page_count d) = Ok page_list →
    Py.float_fits dpi = true →
    render_pages (Doc (next_doc w) d) (zoom_of dpi) grayscale
      (length page_list =? 1)%nat (base_of pdf_path) (base_of pdf_path)
      page_list [] (loop_start pdf_path w) = (Err e, w2) →
    render_exit pdf_path dpi pages grayscale w (Err e) w2
| exit_copy_raises data d page_list saved e w2 :
    fs w !! pdf_path = Some (File data) →
    fitz_load data = Some d →
    parse_pages pages (page_count d) = Ok page_list →
    Py.float_fits dpi = true →
    render_pages (Doc (next_doc w) d) (zoom_of dpi) grayscale
      (length page_list =? 1)%nat (base_of pdf_path) (base_of pdf_path)
      page_list [] (loop_start pdf_path w) = (Ok saved, w2) →
    fs w2 !! pdf_copy_path_of pdf_path = None →
    render_exit pdf_path dpi pages grayscale w (Err e) w2
| exit_return data d page_list saved w2 :
    fs w !! pdf_path = Some (File data) →
    fitz_load data = Some d →
    parse_pages pages (page_count d) = Ok page_list →
    Py.float_fits dpi = true →
    render_pages (Doc (next_doc w) d) (zoom_of dpi) grayscale
      (length page_list =? 1)%nat (base_of pdf_path) (base_of pdf_path)
      page_list [] (loop_start pdf_path w) = (Ok saved, w2) →
    (fs w2 !! pdf_copy_path_of pdf_path = None →
     ∃ data2, fs w2 !! pdf_path = Some (File data2)) →
    render_exit pdf_path dpi pages grayscale w (Ok saved)
      (World (archive pdf_path (fs w2)) (open_docs w2 ∖ {[ next_doc w ]})
         (next_doc w2)).

(** What a run that returns has done: [data] is the source, [d] the
    document read from it, [page_list] the pages selected. *)
Record returned (pdf_path : string) (dpi : Z) (pages : option string)
    (grayscale : bool) (w : world) (saved : list string) (w' : world)
    (data : bytes) (d : Document) (page_list : list Z) : Prop := {
  ret_source : fs w !! pdf_path = Some (File data);
  ret_loaded : fitz_load data = Some d;
  ret_pages : parse_pages pages (page_count d) = Ok page_list;
  ret_saved :
    saved = out_path (length page_list =? 1)%nat (base_of pdf_path)
              (base_of pdf_path) <$> page_list;
  ret_source_kept : fs w' !! pdf_path = Some (File data);
  ret_pngs : ∀ p, p ∈ page_list →
    ∃ png, page_png d (zoom_of dpi) grayscale p = Some png ∧
           fs w' !! out_path (length page_list =? 1)%nat (base_of pdf_path)
                      (base_of pdf_path) p = Some (File png);
  ret_copy :
    fs w' !! pdf_copy_path_of pdf_path =
    match fs w !! pdf_copy_path_of pdf_path with
    | Some n => Some n
    | None => Some (File data)
    end;
  ret_frame : ∀ q,
    q ∉ saved → q ≠ pdf_copy_path_of pdf_path → q ≠ base_of pdf_path →
    fs w' !! q = fs w !! q;
  ret_closed :
    open_docs w' = ({[ next_doc w ]} ∪ open_docs w) ∖ {[ next_doc w ]};
  ret_next : next_doc w' = S (next_doc w)
}.

End render.

(** ** The command line

    [main] of [scripts/render.py], from the arguments [argparse] has
    read: what it prints and the status the process ends with. *)

(** [args] *)
Record args : Type := Args {
  args_pdf : string;
  args_dpi : Z;
  args_pages : option string;
  args_grayscale : bool
}.

(** The text of every [print] on the two streams, in order, and the exit
    status. *)
Record shown : Type := Shown {
  stdout : list string;
  stderr : list string;
  status : Z
}.

Section main.
Context `{Fitz}.

(** [str(e)] for the exceptions whose text is worded by the interpreter
    or by the library. *)
Variable describe : exn → string.

(** [str(e)] *)
Definition str_exn (e : exn) : string :=
  match e with
  | ValueError msg => msg
  | _ => describe e
  end.

Definition main (a : args) (w : world) : shown * world :=
  match render (args_pdf a) (args_dpi a) (args_pages a) (args_grayscale a) w
  with
  | (Ok outputs, w') =>
      (Shown match outputs with
             | [p] => ["Saved: " +:+ p]
             | _ => "Saved:" :: ((λ p, "  " +:+ " " +:+ p) <$> outputs)
             end [] 0, w')
  | (Err e, w') => (Shown [] ["Error: " +:+ str_exn e] 1, w')
  end.

End main.

(** ** A small instance of the library, to run [render] on

    A file whose first byte is [P] is a document with one page per
    following byte; a page whose byte is [!] cannot be rendered; the
    pixmap of a page records its byte, the zoom and the channel count. *)
Module Toy.

Definition pixmap : Type := Byte.byte * Q * Z.

Definition encode (pix : pixmap) : bytes :=
  let '(b, zoom, n) := pix in
  b :: list_byte_of_string
         (":" +:+ Py.str (Qnum zoom) +:+ ":" +:+ Py.str n).

Global Instance fitz : Fitz := {|
  Document := list Byte.byte;
  Page := Byte.byte;
  Pixmap := pixmap;
  fitz_load data :=
    match data with
    | Byte.x50 :: pages => Some pages
    | _ => None
    end;
  page_count d := Z.of_nat (length d);
  load_page d i := if i <? 0 then None else d !! Z.to_nat i;
  get_pixmap page zoom :=
    if Byte.eqb page Byte.x21 then None else Some (page, zoom, 3);
  pixmap_n pix := pix.2;
  to_gray pix := (pix.1, 1);
  png_bytes := encode
|}.

Definition pdf (s : string) : bytes := list_byte_of_string s.

Definition world0 (files : list (string * bytes)) : world :=
  World (list_to_map (prod_map id File <$> files)) ∅ 0.

(** A folder [docs] with a report of three pages. *)
Definition report_world : world :=
  world0 [("docs/report.pdf", pdf "Pabc")].

(** The same, the second page of the report being broken. *)
Definition broken_world : world :=
  world0 [("docs/report.pdf", pdf "Pa!c")].

(** A scan of one page, its extension in capitals. *)
Definition scan_world : world := world0 [("scan.PDF", pdf "Pa")].

(** A document without pages. *)
Definition empty_world : world := world0 [("empty.pdf", pdf "P")].

(** A note of one page, its name without extension. *)
Definition notes_world : world := world0 [("notes", pdf "Pa")].

End Toy.

(** * Properties *)

(** ** Results *)

Lemma res_bind_Ok {A B} (k : A → res B) (r : res A) (b : B) :
  r ≫= k = Ok b ↔ ∃ a, r = Ok a ∧ k a = Ok b.
Proof.
  destruct r as [a|e]; simpl; split.
  - eauto.
  - intros (? & [= <-] & ?). done.
  - done.
  - by intros (? & ? & _).
Qed.

Lemma res_bind_Err {A B} (k : A → res B) (r : res A) (e : exn) :
  r ≫= k = Err e ↔ r = Err e ∨ ∃ a, r = Ok a ∧ k a = Err e.
Proof.
  destruct r as [a|e']; simpl; split.
  - eauto.
  - intros [|(? & [= <-] & ?)]; done.
  - intros [= ->]. by left.
  - intros [[= ->]|(? & ? & _)]; [done|discriminate].
Qed.

(** ** The sorted list of a set *)

Section sorted.

Lemma StronglySorted_le_lt (l : list Z) :
  StronglySorted Z.le l → NoDup l → StronglySorted Z.lt l.
Proof.
  induction 1 as [|x l Hl IH Hx]; intros Hnd; constructor.
  - apply IH. by eapply NoDup_cons_1_2.
  - apply NoDup_cons in Hnd as [Hnotin _].
    rewrite Forall_forall in Hx |- *. intros y Hy.
    assert (x ≠ y) by (intros ->; done).
    specialize (Hx y Hy). lia.
Qed.

Lemma sorted_perm (out : gset Z) : Py.sorted out ≡ₚ elements out.
Proof. apply merge_sort_Permutation. Qed.

Lemma elem_of_sorted (out : gset Z) (x : Z) : x ∈ Py.sorted out ↔ x ∈ out.
Proof. by rewrite sorted_perm, elem_of_elements. Qed.

Lemma NoDup_sorted (out : gset Z) : NoDup (Py.sorted out).
Proof. rewrite sorted_perm. apply NoDup_elements. Qed.

Lemma sorted_ascending (out : gset Z) : StronglySorted Z.lt (Py.sorted out).
Proof.
  apply StronglySorted_le_lt; [|apply NoDup_sorted].
  apply (StronglySorted_merge_sort Z.le).
Qed.

End sorted.

Lemma range_ascending (a b : Z) : StronglySorted Z.lt (Py.range a b).
Proof.
  unfold Py.range. remember (Z.to_nat (b - a)) as k eqn:Hk.
  revert a Hk. induction k as [|k IH]; intros a Hk.
  - rewrite seqZ_nil by lia. constructor.
  - rewrite seqZ_cons by lia. constructor.
    + replace (Z.pred (b - a)) with (b - Z.succ a) by lia. apply IH. lia.
    + rewrite Forall_seqZ. lia.
Qed.

Lemma elem_of_range (a b x : Z) : x ∈ Py.range a b ↔ a ≤ x < b.
Proof. unfold Py.range. rewrite elem_of_seqZ. lia. Qed.

(** ** The loop of [parse_pages] *)

(** What a [part] that is accepted adds to the set. *)
Inductive accepts (num_pages : Z) (part : string) : gset Z → Prop :=
| accepts_number p :
    Py.contains "-" part = false →
    Py.int part = Ok p →
    1 ≤ p ≤ num_pages →
    accepts num_pages part {[ p ]}
| accepts_range sa sb a b :
    Py.split1 "-" part = Some (sa, sb) →
    Py.int sa = Ok a →
    Py.int sb = Ok b →
    1 ≤ a ≤ b ∧ b ≤ num_pages →
    accepts num_pages part (list_to_set (Py.range a (b + 1))).

Lemma parse_part_Ok num_pages out part out' :
  parse_part num_pages out part = Ok out' →
  ∃ new, accepts num_pages (Py.strip part) new ∧ out' = out ∪ new.
Proof.
  unfold parse_part, parse_token. destruct (Py.contains _ _) eqn:Hc.
  - destruct (Py.split1 _ _) as [[sa sb]|] eqn:Hs; [|done].
    intros (a & Ha & (b & Hb & Hif)%res_bind_Ok)%res_bind_Ok.
    destruct (_ || _) eqn:Hchk; [done|].
    injection Hif as <-. eexists; split; [|done].
    eapply accepts_range; eauto. lia.
  - intros (p & Hp & Hif)%res_bind_Ok.
    destruct (_ || _) eqn:Hchk; [done|].
    injection Hif as <-. exists {[ p ]}; split; [|apply (comm_L (∪))].
    eapply accepts_number; eauto. lia.
Qed.

Lemma accepts_bounds num_pages part new x :
  accepts num_pages part new → x ∈ new → 1 ≤ x ≤ num_pages.
Proof.
  destruct 1 as [p _ _ ?|sa sb a b _ _ _ ?].
  - rewrite elem_of_singleton. lia.
  - rewrite elem_of_list_to_set, elem_of_range. lia.
Qed.

Lemma accepts_nonempty num_pages part new :
  accepts num_pages part new → ∃ x, x ∈ new.
Proof.
  destruct 1 as [p _ _ ?|sa sb a b _ _ _ ?].
  - exists p. set_solver.
  - exists a. rewrite elem_of_list_to_set, elem_of_range. lia.
Qed.

Lemma parse_loop_bounds num_pages parts out out' :
  parse_loop num_pages out parts = Ok out' →
  (∀ x, x ∈ out → 1 ≤ x ≤ num_pages) →
  ∀ x, x ∈ out' → 1 ≤ x ≤ num_pages.
Proof.
  revert out. induction parts as [|part rest IH]; simpl; intros out.
  - by intros [= <-].
  - intros (mid & (new & Hacc & ->)%parse_part_Ok & Hrest)%res_bind_Ok Hout.
    apply (IH _ Hrest). intros x [?|?]%elem_of_union; [by apply Hout|].
    by eapply accepts_bounds.
Qed.

Lemma parse_loop_grows num_pages parts out out' :
  parse_loop num_pages out parts = Ok out' → out ⊆ out'.
Proof.
  revert out. induction parts as [|part rest IH]; simpl; intros out.
  - by intros [= <-].
  - intros (mid & (new & _ & ->)%parse_part_Ok & Hrest)%res_bind_Ok.
    apply IH in Hrest. set_solver.
Qed.

Lemma parse_pages_Ok_inv pages_arg num_pages l :
  parse_pages pages_arg num_pages = Ok l →
  (falsy pages_arg = true ∧ l = Py.range 1 (num_pages + 1)) ∨
  (∃ s out, pages_arg = Some s ∧ s ≠ EmptyString ∧
     parse_loop num_pages ∅ (Py.split "," s) = Ok out ∧ l = Py.sorted out).
Proof.
  unfold parse_pages. destruct (falsy pages_arg) eqn:Hf.
  - intros [= <-]. by left.
  - intros (out & Hloop & [= <-])%res_bind_Ok. right.
    destruct pages_arg as [s|]; [|done]. exists s, out.
    split_and!; try done. by intros ->.
Qed.

(** ** The characters of an [int()] literal *)

Section int_literal.

Lemma contains_skip_space s :
  Py.contains "-" (Py.skip_space s) = Py.contains "-" s.
Proof.
  induction s as [|c s IH]; simpl; [done|].
  destruct (Py.int_space c) eqn:Hsp; [|done].
  rewrite IH. destruct (Ascii.eqb_spec c "-") as [->|]; done.
Qed.

(** The digits, and the white space that may follow them, hold no
    hyphen. *)
Lemma int_digits_no_hyphen seen us acc s v rest :
  Py.int_digits seen us acc s = Some (v, rest) →
  Py.skip_space rest = EmptyString →
  Py.contains "-" s = false.
Proof.
  revert seen us acc. induction s as [|c s IH]; simpl; intros seen us acc.
  - done.
  - destruct (Py.isdigit c) eqn:Hd.
    + intros Hs Hr. rewrite (IH _ _ _ Hs Hr).
      destruct (Ascii.eqb_spec c "-") as [->|]; done.
    + destruct (Ascii.eqb_spec c "_") as [->|Hus].
      * destruct (us || negb seen); [done|]. intros Hs Hr.
        by rewrite (IH _ _ _ Hs Hr).
      * destruct (us || negb seen); [done|]. intros [= <- <-] Hr.
        change (Py.contains "-" (String c s) = false).
        rewrite <-contains_skip_space, Hr. done.
Qed.

Lemma digit_value_range c :
  Py.isdigit c = true → 0 ≤ Py.digit_value c ≤ 9.
Proof.
  unfold Py.isdigit, Py.digit_value.
  intros [?%N.leb_le ?%N.leb_le]%andb_true_iff. lia.
Qed.

Lemma int_digits_nonneg seen us acc s v rest :
  Py.int_digits seen us acc s = Some (v, rest) → 0 ≤ acc → 0 ≤ v.
Proof.
  revert seen us acc. induction s as [|c s IH]; simpl; intros seen us acc.
  - destruct (us || negb seen); [done|]. by intros [= <- _].
  - destruct (Py.isdigit c) eqn:Hd.
    + intros Hs Hacc. apply (IH _ _ _ Hs).
      apply digit_value_range in Hd. lia.
    + destruct (Ascii.eqb c "_").
      * destruct (us || negb seen); [done|]. apply IH.
      * destruct (us || negb seen); [done|]. by intros [= <- _].
Qed.

(** A literal with a hyphen in it is a minus sign and digits: never
    positive. *)
Lemma int_hyphen_nonpos s v :
  Py.int s = Ok v → Py.contains "-" s = true → v ≤ 0.
Proof.
  unfold Py.int. rewrite <-(contains_skip_space s).
  destruct (Py.skip_space s) as [|c body] eqn:Hsk; [done|].
  unfold Py.int_signed.
  destruct (Ascii.eqb_spec c "+") as [->|Hplus];
    [|destruct (Ascii.eqb_spec c "-") as [->|Hminus]].
  - destruct (Py.int_digits _ _ _ body) as [[w rest]|] eqn:Hd; [|done].
    destruct (Py.skip_space rest) eqn:Hr; [|done].
    simpl. by rewrite (int_digits_no_hyphen _ _ _ _ _ _ Hd Hr).
  - destruct (Py.int_digits _ _ _ body) as [[w rest]|] eqn:Hd; [|done].
    destruct (Py.skip_space rest) eqn:Hr; [|done].
    intros [= <-] _. apply int_digits_nonneg in Hd; lia.
  - assert (Py.int_signed (String c body) = (1, String c body)) as Hsg.
    { unfold Py.int_signed. destruct c as [[] [] [] [] [] [] [] []]; done. }
    fold (Py.int_signed (String c body)). rewrite Hsg.
    destruct (Py.int_digits _ _ _ _) as [[w rest]|] eqn:Hd; [|done].
    destruct (Py.skip_space rest) eqn:Hr; [|done].
    by rewrite (int_digits_no_hyphen _ _ _ _ _ _ Hd Hr).
Qed.

Lemma int_Err s e : Py.int s = Err e → e = ValueError_int s.
Proof.
  unfold Py.int. destruct (Py.int_signed _) as [sign body].
  destruct (Py.int_digits _ _ _ _) as [[v rest]|]; [|congruence].
  destruct (Py.skip_space rest); congruence.
Qed.

End int_literal.

Section int_literal_chars.

Lemma skip_space_chars s :
  Py.all_chars literal_char (Py.skip_space s) = true →
  Py.all_chars literal_char s = true.
Proof.
  induction s as [|c s IH]; simpl; [done|].
  destruct (Py.int_space c) eqn:Hsp; [|done].
  intros ->%IH. unfold literal_char. rewrite Hsp.
  by rewrite andb_true_r, orb_true_r.
Qed.

Lemma skip_space_empty_chars s :
  Py.skip_space s = EmptyString → Py.all_chars literal_char s = true.
Proof. intros Hs. apply skip_space_chars. by rewrite Hs. Qed.

Lemma int_digits_chars seen us acc s v rest :
  Py.int_digits seen us acc s = Some (v, rest) →
  Py.skip_space rest = EmptyString →
  Py.all_chars literal_char s = true.
Proof.
  revert seen us acc.
  induction s as [|c s IH]; intros seen us acc Hs Hr; [done|].
  simpl in Hs. destruct (Py.isdigit c) eqn:Hd.
  - simpl. unfold literal_char at 1. rewrite Hd. simpl. eauto.
  - destruct (Ascii.eqb_spec c "_") as [->|Hus].
    + destruct (us || negb seen); [done|]. simpl. eauto.
    + destruct (us || negb seen); [done|]. injection Hs as <- <-.
      by apply skip_space_empty_chars.
Qed.

(** [int()] accepts nothing but digits, signs, underscores and white
    space. *)
Lemma int_Ok_chars s v :
  Py.int s = Ok v → Py.all_chars literal_char s = true.
Proof.
  unfold Py.int. intros Hint. apply skip_space_chars. revert Hint.
  destruct (Py.int_signed (Py.skip_space s)) as [sign body] eqn:Hsg.
  destruct (Py.int_digits _ _ _ body) as [[w rest]|] eqn:Hd; [|done].
  destruct (Py.skip_space rest) eqn:Hr; [|done].
  intros _. pose proof (int_digits_chars _ _ _ _ _ _ Hd Hr) as Hbody.
  unfold Py.int_signed in Hsg.
  destruct (Py.skip_space s) as [|c t]; [by injection Hsg as _ <-|].
  destruct (Ascii.eqb_spec c "+") as [->|Hplus];
    [|destruct (Ascii.eqb_spec c "-") as [->|Hminus]].
  - by injection Hsg as _ <-.
  - by injection Hsg as _ <-.
  - assert (body = String c t) as ->; [|done].
    destruct c as [[] [] [] [] [] [] [] []]; by injection Hsg.
Qed.

End int_literal_chars.

(** ** Splitting at the first separator *)

Section split1.

Lemma split1_contains sep s :
  Py.contains sep s = true ↔ is_Some (Py.split1 sep s).
Proof.
  induction s as [|c s IH]; simpl.
  - split; [done|]. by intros [? ?].
  - destruct (Ascii.eqb c sep); [by split; eauto|].
    rewrite IH. destruct (Py.split1 sep s) as [[a b]|]; split; eauto.
    all: by intros [? ?].
Qed.

Lemma split1_count sep s a b :
  Py.split1 sep s = Some (a, b) → Py.count sep s = S (Py.count sep b).
Proof.
  revert a. induction s as [|c s IH]; simpl; intros a; [done|].
  destruct (Ascii.eqb c sep); [by intros [= _ ->]|].
  destruct (Py.split1 sep s) as [[a' b']|]; [|done].
  intros [= _ <-]. by apply (IH a').
Qed.

Lemma count_contains sep s :
  (1 ≤ Py.count sep s)%nat → Py.contains sep s = true.
Proof.
  induction s as [|c s IH]; simpl; [lia|].
  destruct (Ascii.eqb c sep); [done|]. apply IH.
Qed.

End split1.

(** ** Tokens that are refused *)

Section refused.
Variable num_pages : Z.

Lemma parse_token_Err_ValueError out part e :
  parse_token num_pages out part = Err e → is_ValueError e = true.
Proof.
  unfold parse_token. destruct (Py.contains _ _).
  - destruct (Py.split1 _ _) as [[sa sb]|]; [|by intros [= <-]].
    intros [->%int_Err|(a & _ & [->%int_Err|(b & _ & Hif)]%res_bind_Err)]
      %res_bind_Err; [done..|].
    destruct (_ || _); [by injection Hif as <-|done].
  - intros [->%int_Err|(p & _ & Hif)]%res_bind_Err; [done|].
    destruct (_ || _); [by injection Hif as <-|done].
Qed.

Lemma parse_token_out_of_range out part e :
  out_of_range num_pages part e → parse_token num_pages out part = Err e.
Proof.
  unfold parse_token.
  destruct 1 as [p Hc Hp Hout|sa sb a b Hs Ha Hb Hout].
  - rewrite Hc, Hp. simpl.
    destruct (_ || _) eqn:Hchk; [done|]. exfalso. apply Hout. lia.
  - assert (Py.contains "-" part = true) as ->.
    { apply split1_contains. by rewrite Hs. }
    rewrite Hs, Ha. simpl. rewrite Hb. simpl.
    destruct (_ || _) eqn:Hchk; [done|]. exfalso. apply Hout. lia.
Qed.

(** A range whose right side still holds a hyphen is refused: the right
    side is no literal, or it is one that is not positive. *)
Lemma parse_token_second_hyphen out part sa sb :
  Py.split1 "-" part = Some (sa, sb) →
  Py.contains "-" sb = true →
  ∃ e, parse_token num_pages out part = Err e.
Proof.
  intros Hs Hsb. unfold parse_token.
  assert (Py.contains "-" part = true) as ->.
  { apply split1_contains. by rewrite Hs. }
  rewrite Hs. destruct (Py.int sa) as [a|ea]; simpl; [|by eexists].
  destruct (Py.int sb) as [b|eb] eqn:Hb; simpl; [|by eexists].
  pose proof (int_hyphen_nonpos _ _ Hb Hsb).
  replace (b <? 1) with true by (symmetry; apply Z.ltb_lt; lia).
  rewrite orb_true_r. simpl. by eexists.
Qed.

Lemma parse_token_malformed out part :
  malformed part → ∃ e, parse_token num_pages out part = Err e.
Proof.
  destruct 1 as [|part Hc Hch|part e Hc He|rest|part Hn|part sa sb e Hs Hside].
  - by eexists.
  - unfold parse_token. rewrite Hc.
    destruct (Py.int part) as [p|e] eqn:Hp; simpl; [|by eexists].
    apply int_Ok_chars in Hp. congruence.
  - unfold parse_token. rewrite Hc, He. by eexists.
  - by eexists.
  - assert (Py.contains "-" part = true) as [[sa sb] Hs]%split1_contains.
    { apply count_contains. lia. }
    apply (parse_token_second_hyphen _ _ _ _ Hs).
    apply count_contains. apply split1_count in Hs. lia.
  - unfold parse_token.
    assert (Py.contains "-" part = true) as ->.
    { apply split1_contains. by rewrite Hs. }
    rewrite Hs. destruct Hside as [->| Hb]; simpl; [by eexists|].
    destruct (Py.int sa); simpl; [|by eexists].
    rewrite Hb. by eexists.
Qed.

Lemma parse_loop_app out l1 l2 :
  parse_loop num_pages out (l1 ++ l2) =
  parse_loop num_pages out l1 ≫= λ mid, parse_loop num_pages mid l2.
Proof.
  revert out. induction l1 as [|part l1 IH]; simpl; intros out; [done|].
  destruct (parse_part num_pages out part); simpl; [apply IH|done].
Qed.

Lemma parse_loop_Err_ValueError out parts e :
  parse_loop num_pages out parts = Err e → is_ValueError e = true.
Proof.
  revert out. induction parts as [|part rest IH]; simpl; intros out.
  - done.
  - intros [He|(mid & _ & He)]%res_bind_Err; [|by eapply IH].
    by eapply parse_token_Err_ValueError.
Qed.

(** No token is skipped: one that is refused makes the loop fail, at
    this token or before. *)
Lemma parse_loop_refused out parts tok :
  tok ∈ parts →
  (∀ mid, ∃ e, parse_part num_pages mid tok = Err e) →
  ∃ e, parse_loop num_pages out parts = Err e.
Proof.
  intros Hin Htok. revert out.
  induction parts as [|part rest IH]; intros out; [by inversion Hin|].
  simpl. destruct (parse_part num_pages out part) as [mid|e] eqn:Hpart;
    simpl; [|by eexists].
  apply elem_of_cons in Hin as [->|Hin]; [|by apply IH].
  destruct (Htok out) as [e He]. congruence.
Qed.

Lemma parse_pages_loop s :
  s ≠ EmptyString →
  parse_pages (Some s) num_pages =
  parse_loop num_pages ∅ (Py.split "," s) ≫= λ out, Ok (Py.sorted out).
Proof. by destruct s. Qed.

End refused.

(** ** The page-range resolver *)

Lemma parse_pages_Ok_ascending pages_arg num_pages l :
  parse_pages pages_arg num_pages = Ok l → StronglySorted Z.lt l.
Proof.
  intros [[_ ->]|(s & out & _ & _ & _ & ->)]%parse_pages_Ok_inv.
  - apply range_ascending.
  - apply sorted_ascending.
Qed.

Lemma parse_pages_Ok_bounds pages_arg num_pages l :
  parse_pages pages_arg num_pages = Ok l →
  ∀ p, p ∈ l → 1 ≤ p ≤ num_pages.
Proof.
  intros [[_ ->]|(s & out & _ & _ & Hloop & ->)]%parse_pages_Ok_inv p.
  - intros Hp%elem_of_range. lia.
  - intros Hp%elem_of_sorted.
    eapply parse_loop_bounds; [done| |done].
    intros x Hx. by apply not_elem_of_empty in Hx.
Qed.

(** C1.  Whenever [parse_pages] returns a list, for any specification and
    any page count, the list is strictly ascending, holds no page twice,
    and every page of it lies between 1 and [num_pages]. *)
Theorem parse_pages_ascending_in_bounds pages_arg num_pages l :
  parse_pages pages_arg num_pages = Ok l →
  StronglySorted Z.lt l ∧ NoDup l ∧ Forall (λ p, 1 ≤ p ≤ num_pages) l.
Proof.
  intros Hpages. split_and!.
  - by eapply parse_pages_Ok_ascending.
  - apply parse_pages_Ok_inv in Hpages
      as [[_ ->]|(s & out & _ & _ & _ & ->)].
    + apply NoDup_seqZ.
    + apply NoDup_sorted.
  - apply Forall_forall. intros p Hp.
    by eapply parse_pages_Ok_bounds.
Qed.

Lemma parse_pages_ascending_in_bounds_witness :
  parse_pages (Some "5,1-3,2") 7 = Ok [1; 2; 3; 5] ∧
  StronglySorted Z.lt [1; 2; 3; 5] ∧ NoDup [1; 2; 3; 5] ∧
  Forall (λ p, 1 ≤ p ≤ 7) [1; 2; 3; 5].
Proof.
  split; [vm_compute; reflexivity|].
  apply (parse_pages_ascending_in_bounds (Some "5,1-3,2") 7).
  vm_compute; reflexivity.
Defined.

(** C6.  For a page count [N] of at least 1, an absent or empty
    specification resolves to the list 1, 2, ..., [N]: it has [N] entries
    and its entry at position [i] (from 0) is [i + 1]. *)
Theorem parse_pages_default_all_pages pages_arg N :
  1 ≤ N →
  pages_arg = None ∨ pages_arg = Some EmptyString →
  ∃ l, parse_pages pages_arg N = Ok l ∧
       Z.of_nat (length l) = N ∧
       (∀ i, (i < length l)%nat → l !! i = Some (Z.of_nat i + 1)) ∧
       l = Z.of_nat <$> seq 1 (Z.to_nat N).
Proof.
  intros HN Hspec. exists (Py.range 1 (N + 1)). split_and!.
  - by destruct Hspec as [-> | ->].
  - unfold Py.range. rewrite length_seqZ. lia.
  - unfold Py.range. intros i Hi. rewrite length_seqZ in Hi.
    rewrite lookup_seqZ_lt by lia. f_equal. lia.
  - unfold Py.range, seqZ. replace (N + 1 - 1) with N by lia.
    rewrite <-(fmap_S_seq 0), <-list_fmap_compose.
    apply list_fmap_ext. intros _ i _. simpl. lia.
Qed.

Lemma parse_pages_default_all_pages_witness :
  ∃ l, parse_pages None 4 = Ok l ∧
       Z.of_nat (length l) = 4 ∧
       (∀ i, (i < length l)%nat → l !! i = Some (Z.of_nat i + 1)) ∧
       l = Z.of_nat <$> seq 1 (Z.to_nat 4).
Proof.
  apply (parse_pages_default_all_pages None 4); [lia|by left].
Defined.

(** C7.  Overlapping tokens are united and the result is sorted:
    ["1,3-5,7"] over 10 pages gives 1, 3, 4, 5, 7, and ["2-4,1"] over 10
    pages gives 1, 2, 3, 4. *)
Theorem parse_pages_examples :
  parse_pages (Some "1,3-5,7") 10 = Ok [1; 3; 4; 5; 7] ∧
  parse_pages (Some "2-4,1") 10 = Ok [1; 2; 3; 4].
Proof. split; vm_compute; reflexivity. Qed.

(** C5.  A token that is a single integer (no hyphen, read by [int()])
    outside 1..[num_pages] makes [parse_pages] fail, and so does a range
    token [a-b] (cut at its first hyphen, both sides read by [int()]) that
    violates [1 <= a <= b <= num_pages]; the error is a [ValueError].
    When the tokens before it are accepted, the error is the token's own:
    "Invalid page number: " followed by the integer for a single integer,
    "Invalid page range: " followed by the token for a range. *)
Theorem parse_pages_out_of_range s num_pages tok e :
  s ≠ EmptyString →
  tok ∈ Py.split "," s →
  out_of_range num_pages (Py.strip tok) e →
  (∃ e', parse_pages (Some s) num_pages = Err e' ∧ is_ValueError e' = true) ∧
  (∀ pre post mid,
     Py.split "," s = pre ++ tok :: post →
     parse_loop num_pages ∅ pre = Ok mid →
     parse_pages (Some s) num_pages = Err e).
Proof.
  intros Hs Hin Hout. rewrite parse_pages_loop by done. split.
  - destruct (parse_loop_refused num_pages ∅ _ _ Hin) as [e' He'].
    { intros mid. eexists. by apply parse_token_out_of_range. }
    exists e'. rewrite He'. split; [done|].
    by eapply parse_loop_Err_ValueError.
  - intros pre post mid -> Hpre.
    rewrite parse_loop_app, Hpre. simpl.
    unfold parse_part. by rewrite (parse_token_out_of_range _ _ _ _ Hout).
Qed.

Lemma parse_pages_out_of_range_witness :
  parse_pages (Some "0") 5 = Err (ValueError "Invalid page number: 0") ∧
  parse_pages (Some "6") 5 = Err (ValueError "Invalid page number: 6") ∧
  parse_pages (Some "3-2") 5 = Err (ValueError "Invalid page range: 3-2") ∧
  parse_pages (Some "2, 1-9") 5 = Err (ValueError "Invalid page range: 1-9").
Proof.
  split_and!.
  - refine (proj2 (parse_pages_out_of_range "0" 5 "0" _ _ _ _) [] [] ∅ _ _);
      [done|by left| |done..].
    by apply (page_out_of_range 5 "0" 0); [..|lia].
  - refine (proj2 (parse_pages_out_of_range "6" 5 "6" _ _ _ _) [] [] ∅ _ _);
      [done|by left| |done..].
    by apply (page_out_of_range 5 "6" 6); [..|lia].
  - refine (proj2 (parse_pages_out_of_range "3-2" 5 "3-2" _ _ _ _)
              [] [] ∅ _ _); [done|by left| |done..].
    by apply (range_out_of_range 5 "3-2" "3" "2" 3 2); [..|lia].
  - refine (proj2 (parse_pages_out_of_range "2, 1-9" 5 " 1-9" _ _ _ _)
              ["2"] [] {[ 2 ]} _ _);
      [done|by right; left| |done|vm_compute; reflexivity].
    by apply (range_out_of_range 5 "1-9" "1" "9" 1 9); [..|lia].
Defined.

(** C10.  A specification that is not empty and has a malformed token
    (one that is empty, not numeric, starts with a hyphen, or holds more
    than one hyphen) makes [parse_pages] raise a [ValueError]: no list
    is returned, so the token is neither skipped nor turned into
    pages. *)
Theorem parse_pages_malformed s num_pages tok :
  s ≠ EmptyString →
  tok ∈ Py.split "," s →
  malformed (Py.strip tok) →
  ∃ e, parse_pages (Some s) num_pages = Err e ∧ is_ValueError e = true.
Proof.
  intros Hs Hin Hmal. rewrite parse_pages_loop by done.
  destruct (parse_loop_refused num_pages ∅ _ _ Hin) as [e He].
  { intros mid. by apply parse_token_malformed. }
  exists e. rewrite He. split; [done|].
  by eapply parse_loop_Err_ValueError.
Qed.

Lemma parse_pages_malformed_witness :
  (∃ e, parse_pages (Some "1,abc") 5 = Err e ∧ is_ValueError e = true) ∧
  (∃ e, parse_pages (Some "1,,2") 5 = Err e ∧ is_ValueError e = true) ∧
  (∃ e, parse_pages (Some "1, -2") 5 = Err e ∧ is_ValueError e = true) ∧
  (∃ e, parse_pages (Some "1-2-3") 5 = Err e ∧ is_ValueError e = true).
Proof.
  split_and!.
  - apply (parse_pages_malformed "1,abc" 5 "abc"); [done|by right; left|].
    by apply malformed_non_numeric.
  - apply (parse_pages_malformed "1,,2" 5 ""); [done|by right; left|].
    apply malformed_empty.
  - apply (parse_pages_malformed "1, -2" 5 " -2"); [done|by right; left|].
    apply malformed_leading_hyphen.
  - apply (parse_pages_malformed "1-2-3" 5 "1-2-3"); [done|by left|].
    apply malformed_multi_hyphen. vm_compute. lia.
Defined.

(** ** Strings *)

Section strings.
Implicit Types (s t : string) (c x : ascii).

Lemma append_cons c s t : String c s +:+ t = String c (s +:+ t).
Proof. done. Qed.

Lemma append_nil_l t : "" +:+ t = t.
Proof. done. Qed.

Lemma append_char c t : String c "" +:+ t = String c t.
Proof. done. Qed.

Lemma append_nil_r s : s +:+ "" = s.
Proof. induction s as [|c s IH]; [done|]. by rewrite append_cons, IH. Qed.

Lemma append_assoc s t u : (s +:+ t) +:+ u = s +:+ t +:+ u.
Proof.
  induction s as [|c s IH]; [done|]. by rewrite !append_cons, IH.
Qed.

Lemma length_append s t :
  String.length (s +:+ t) = (String.length s + String.length t)%nat.
Proof.
  induction s as [|c s IH]; [done|]. rewrite append_cons. simpl. by rewrite IH.
Qed.

Lemma append_nonempty_r s t : t ≠ "" → s +:+ t ≠ "".
Proof.
  intros Ht Heq. apply (f_equal String.length) in Heq.
  rewrite length_append in Heq. destruct t; [done|]. simpl in Heq. lia.
Qed.

Lemma append_inv_tail s t u : s +:+ u = t +:+ u → s = t.
Proof.
  revert t. induction s as [|c s IH]; intros [|c' t] Heq.
  - done.
  - apply (f_equal String.length) in Heq.
    rewrite append_nil_l, append_cons in Heq. simpl in Heq.
    rewrite length_append in Heq. lia.
  - apply (f_equal String.length) in Heq.
    rewrite append_nil_l, append_cons in Heq. simpl in Heq.
    rewrite length_append in Heq. lia.
  - rewrite !append_cons in Heq. injection Heq as -> Heq.
    f_equal. by apply IH.
Qed.

Lemma contains_append x s t :
  Py.contains x (s +:+ t) = Py.contains x s || Py.contains x t.
Proof.
  induction s as [|c s IH]; [done|]. rewrite append_cons. simpl.
  by destruct (Ascii.eqb c x).
Qed.

Lemma startswith_contains x s :
  Path.startswith x s = true → Py.contains x s = true.
Proof. destruct s as [|c s]; simpl; [done|]. by intros ->. Qed.

Lemma startswith_append x s t :
  s ≠ "" → Path.startswith x (s +:+ t) = Path.startswith x s.
Proof. by destruct s. Qed.

Lemma endswith_cons x c s :
  s ≠ "" → Path.endswith x (String c s) = Path.endswith x s.
Proof. by destruct s. Qed.

Lemma endswith_append x s t :
  t ≠ "" → Path.endswith x (s +:+ t) = Path.endswith x t.
Proof.
  intros Ht. induction s as [|c s IH]; [done|].
  rewrite append_cons, endswith_cons; [done|].
  destruct s; [done|]. by rewrite append_cons.
Qed.

Lemma endswith_inv x s :
  Path.endswith x s = true → ∃ s', s = s' +:+ String x "".
Proof.
  induction s as [|c s IH]; [done|]. destruct s as [|c' s].
  - simpl. intros ->%Ascii.eqb_eq. by exists "".
  - rewrite endswith_cons by done. intros [s' ->]%IH.
    by exists (String c s').
Qed.

Lemma endswith_no_contains x s :
  Py.contains x s = false → Path.endswith x s = false.
Proof.
  intros Hc. destruct (Path.endswith x s) eqn:He; [|done].
  apply endswith_inv in He as [s' ->].
  rewrite contains_append in Hc. simpl in Hc.
  rewrite Ascii.eqb_refl in Hc. by destruct (Py.contains x s').
Qed.

Lemma split_last_Some x s a b :
  Path.split_last x s = Some (a, b) →
  s = a +:+ String x b ∧ Py.contains x b = false.
Proof.
  revert a. induction s as [|c s IH]; intros a; simpl; [done|].
  destruct (Path.split_last x s) as [[a' b']|] eqn:Hs.
  - intros [= <- <-]. destruct (IH a' eq_refl) as [-> ?]. done.
  - destruct (Ascii.eqb_spec c x) as [->|]; [|done].
    intros [= <- <-]. split; [done|].
    clear IH. induction s as [|c s IH]; [done|]. simpl in *.
    destruct (Path.split_last x s) as [[a' b']|]; [done|].
    destruct (Ascii.eqb c x); [done|]. by apply IH.
Qed.

Lemma split_last_None x s :
  Path.split_last x s = None → Py.contains x s = false.
Proof.
  induction s as [|c s IH]; simpl; [done|].
  destruct (Path.split_last x s) as [[a' b']|]; [done|].
  destruct (Ascii.eqb c x); [done|]. by apply IH.
Qed.

Lemma split_last_no_contains x s :
  Py.contains x s = false → Path.split_last x s = None.
Proof.
  induction s as [|c s IH]; simpl; [done|].
  destruct (Ascii.eqb c x); [done|]. by intros ->%IH.
Qed.

Lemma split_last_append x a b :
  Py.contains x b = false →
  Path.split_last x (a +:+ String x b) = Some (a, b).
Proof.
  intros Hb. induction a as [|c a IH].
  - simpl. by rewrite (split_last_no_contains _ _ Hb), Ascii.eqb_refl.
  - rewrite append_cons. simpl. by rewrite IH.
Qed.

End strings.

(** ** Paths *)

Section paths.
Implicit Types (p a b : string).

Lemma basename_no_slash p : Py.contains "/" (Path.basename p) = false.
Proof.
  unfold Path.basename.
  destruct (Path.split_last "/" p) as [[head tail]|] eqn:Hs.
  - by apply split_last_Some in Hs as [_ ?].
  - by apply split_last_None.
Qed.

(** The two ways in which [join] glues a relative name to a folder. *)
Lemma join_relative a b :
  Path.startswith "/" b = false →
  Path.join a b = a +:+ b ∧ (a = "" ∨ Path.endswith "/" a = true) ∨
  Path.join a b = a +:+ "/" +:+ b ∧ a ≠ "" ∧ Path.endswith "/" a = false.
Proof.
  intros Hb. unfold Path.join. rewrite Hb.
  destruct (String.eqb_spec a "") as [->|Ha]; simpl; [by left; auto|].
  destruct (Path.endswith "/" a); [left|right]; auto.
Qed.

Lemma join_suffix a b : ∃ pre, Path.join a b = pre +:+ b.
Proof.
  unfold Path.join. destruct (Path.startswith "/" b); [by exists ""|].
  destruct (_ || _); [by exists a|].
  exists (a +:+ "/"). by rewrite append_assoc.
Qed.

Lemma join_endswith x a b :
  b ≠ "" → Path.endswith x (Path.join a b) = Path.endswith x b.
Proof.
  intros Hb. destruct (join_suffix a b) as [pre ->].
  by apply endswith_append.
Qed.

Lemma join_inj a b1 b2 :
  Path.startswith "/" b1 = false → Path.startswith "/" b2 = false →
  Path.join a b1 = Path.join a b2 → b1 = b2.
Proof.
  intros H1 H2. unfold Path.join. rewrite H1, H2.
  destruct (_ || _); intros Heq.
  - by apply (inj (String.append a)) in Heq.
  - apply (inj (String.append a)) in Heq. by injection Heq.
Qed.

Lemma join_longer a b :
  Path.startswith "/" b = false → b ≠ "" → Path.join a b ≠ a.
Proof.
  intros Hb Hne Heq. apply (f_equal String.length) in Heq.
  destruct (join_relative a b Hb) as [[Hj _]|[Hj _]];
    rewrite Hj, !length_append in Heq; destruct b; simpl in *; try done; lia.
Qed.

Lemma basename_join a b :
  Py.contains "/" b = false → Path.basename (Path.join a b) = b.
Proof.
  intros Hb.
  assert (Path.startswith "/" b = false) as Hst.
  { destruct (Path.startswith "/" b) eqn:Hst; [|done].
    apply startswith_contains in Hst. congruence. }
  unfold Path.basename.
  destruct (join_relative a b Hst) as [[-> [->|He]]|[-> _]].
  - by rewrite append_nil_l, (split_last_no_contains _ _ Hb).
  - apply endswith_inv in He as [a' ->].
    by rewrite append_assoc, append_char, split_last_append.
  - by rewrite append_char, split_last_append.
Qed.

(** [splitext] cuts the path in two; an extension starts with a dot and
    follows a name that is not empty. *)
Lemma splitext_spec p base ext :
  Path.splitext p = (base, ext) →
  p = base +:+ ext ∧
  (ext = "" ∨
   ∃ e, ext = String "." e ∧ base ≠ "" ∧ Path.endswith "/" base = false).
Proof.
  unfold Path.splitext.
  set (dn := match Path.split_last "/" p with
             | Some (head, tail) => (head +:+ "/", tail)
             | None => ("", p)
             end).
  assert (p = dn.1 +:+ dn.2 ∧ Py.contains "/" dn.2 = false) as [Hp Hname].
  { unfold dn. destruct (Path.split_last "/" p) as [[head tail]|] eqn:Hs.
    - apply split_last_Some in Hs as [-> ?]. simpl.
      by rewrite append_assoc.
    - by apply split_last_None in Hs. }
  destruct dn as [dir name]. simpl in *.
  destruct (Path.split_last "." name) as [[stem e]|] eqn:Hdot;
    [|intros [= <- <-]; rewrite append_nil_r; auto].
  destruct (Py.all_chars _ stem) eqn:Hdots;
    intros [= <- <-]; [rewrite append_nil_r; auto|].
  apply split_last_Some in Hdot as [-> _]. split.
  - by rewrite Hp, append_assoc.
  - right. exists e. split; [done|].
    rewrite contains_append in Hname.
    apply orb_false_iff in Hname as [Hstem _].
    assert (stem ≠ "") as Hne by (by intros ->).
    split; [by destruct dir, stem|].
    rewrite endswith_append by done. by apply endswith_no_contains.
Qed.

End paths.

(** ** Printing and reading back an int *)

Section decimal.

Lemma int_digits_uint_acc d (acc : positive) seen :
  seen = true ∨ d ≠ Nil →
  Py.int_digits seen false (Z.pos acc) (NilEmpty.string_of_uint d) =
  Some (Z.pos (Pos.of_uint_acc d acc), "").
Proof.
  revert acc seen.
  induction d as [|d IH|d IH|d IH|d IH|d IH|d IH|d IH|d IH|d IH|d IH];
    intros acc seen Hseen;
    [by destruct Hseen as [->|?]|
     simpl NilEmpty.string_of_uint; cbn [Py.int_digits Pos.of_uint_acc];
     match goal with
     | |- context [Py.isdigit ?c] =>
         change (Py.isdigit c) with true; cbv iota
     end;
     rewrite <-(IH _ true) by auto; f_equal; unfold Py.digit_value; simpl;
     lia ..].
Qed.

Lemma int_digits_uint d seen :
  seen = true ∨ d ≠ Nil →
  Py.int_digits seen false 0 (NilEmpty.string_of_uint d) =
  Some (Z.of_uint d, "").
Proof.
  revert seen.
  induction d as [|d IH|d IH|d IH|d IH|d IH|d IH|d IH|d IH|d IH|d IH];
    intros seen Hseen;
    [by destruct Hseen as [->|?]|
     simpl NilEmpty.string_of_uint; cbn [Py.int_digits];
     match goal with
     | |- context [Py.isdigit ?c] =>
         change (Py.isdigit c) with true; cbv iota
     end ..].
  - apply IH. by left.
  - apply (int_digits_uint_acc d 1). by left.
  - apply (int_digits_uint_acc d 2). by left.
  - apply (int_digits_uint_acc d 3). by left.
  - apply (int_digits_uint_acc d 4). by left.
  - apply (int_digits_uint_acc d 5). by left.
  - apply (int_digits_uint_acc d 6). by left.
  - apply (int_digits_uint_acc d 7). by left.
  - apply (int_digits_uint_acc d 8). by left.
  - apply (int_digits_uint_acc d 9). by left.
Qed.

Lemma string_of_uint_digits d :
  Py.all_chars Py.isdigit (NilEmpty.string_of_uint d) = true.
Proof. induction d; simpl; auto. Qed.

(** A string that starts with a digit is read without sign. *)
Lemma int_unsigned c r :
  Py.isdigit c = true →
  Py.int (String c r) =
  match Py.int_digits false false 0 (String c r) with
  | Some (v, rest) =>
      match Py.skip_space rest with
      | EmptyString => Ok v
      | _ => Err (ValueError_int (String c r))
      end
  | None => Err (ValueError_int (String c r))
  end.
Proof.
  intros Hd. unfold Py.int.
  assert (Py.skip_space (String c r) = String c r) as ->.
  { simpl. destruct c as [[] [] [] [] [] [] [] []]; done. }
  assert (Py.int_signed (String c r) = (1, String c r)) as ->.
  { simpl. destruct c as [[] [] [] [] [] [] [] []]; done. }
  destruct (Py.int_digits _ _ _ _) as [[v rest]|]; [|done].
  by destruct v.
Qed.

(** What [str] prints for an int that is not negative. *)
Lemma str_nonneg z :
  0 ≤ z →
  ∃ d, d ≠ Nil ∧ Py.str z = NilEmpty.string_of_uint d ∧ Z.of_uint d = z.
Proof.
  intros Hz. unfold Py.str. destruct z as [|p|p]; [| |lia].
  - by exists (D0 Nil).
  - exists (Pos.to_uint p). pose proof (DecimalPos.Unsigned.to_uint_nonnil p).
    split_and!; [done| |].
    + simpl. by destruct (Pos.to_uint p).
    + apply (DecimalZ.of_to (Z.pos p)).
Qed.

Lemma string_of_uint_cons d :
  d ≠ Nil →
  ∃ c r, NilEmpty.string_of_uint d = String c r ∧ Py.isdigit c = true.
Proof. destruct d; [done|by eexists _, _..]. Qed.

(** [int(str(z)) == z] *)
Lemma int_str z : 0 ≤ z → Py.int (Py.str z) = Ok z.
Proof.
  intros (d & Hd & -> & <-)%str_nonneg.
  destruct (string_of_uint_cons d Hd) as (c & r & Hs & Hc).
  rewrite Hs, (int_unsigned c r Hc), <-Hs.
  rewrite int_digits_uint by auto. done.
Qed.

(** [int(format(z, "02d")) == z]: the zero that fills does not change
    the number. *)
Lemma int_format_02d z : 0 ≤ z → Py.int (Py.format_02d z) = Ok z.
Proof.
  intros Hz. unfold Py.format_02d.
  destruct (_ <? _)%nat; [|by apply int_str].
  destruct (str_nonneg z Hz) as (d & Hd & -> & <-).
  rewrite int_unsigned by done. cbn [Py.int_digits].
  change (Py.isdigit "0") with true. cbv iota.
  change (10 * 0 + Py.digit_value "0") with 0.
  rewrite (int_digits_uint d true) by auto. done.
Qed.

Lemma format_02d_inj z1 z2 :
  0 ≤ z1 → 0 ≤ z2 → Py.format_02d z1 = Py.format_02d z2 → z1 = z2.
Proof.
  intros H1 H2 Heq. apply (f_equal Py.int) in Heq.
  rewrite !int_format_02d in Heq by done. by injection Heq.
Qed.


Lemma format_02d_digits z :
  0 ≤ z → Py.all_chars Py.isdigit (Py.format_02d z) = true.
Proof.
  intros (d & Hd & Hs & _)%str_nonneg. unfold Py.format_02d.
  rewrite Hs. destruct (_ <? _)%nat; simpl; apply string_of_uint_digits.
Qed.

End decimal.

(** ** Computations *)

Section monad.
Context {A B : Type}.
Implicit Types (m : M A) (k : A → M B) (w : world).

Lemma M_bind_Ok m k w b w' :
  (m ≫= k) w = (Ok b, w') ↔ ∃ a w1, m w = (Ok a, w1) ∧ k a w1 = (Ok b, w').
Proof.
  unfold mbind, M_bind. destruct (m w) as [[a|e] w1]; split.
  - eauto.
  - by intros (? & ? & [= <- <-] & ?).
  - done.
  - by intros (? & ? & ? & _).
Qed.

Lemma M_bind_Err m k w e w' :
  (m ≫= k) w = (Err e, w') ↔
  m w = (Err e, w') ∨ ∃ a w1, m w = (Ok a, w1) ∧ k a w1 = (Err e, w').
Proof.
  unfold mbind, M_bind. destruct (m w) as [[a|e1] w1]; split.
  - eauto.
  - by intros [?|(? & ? & [= <- <-] & ?)].
  - intros [= <- <-]. by left.
  - intros [[= <- <-]|(? & ? & ? & _)]; done.
Qed.

Lemma lift_inv (r : res A) w r' w' :
  lift r w = (r', w') → r' = r ∧ w' = w.
Proof. by intros [= <- <-]. Qed.

End monad.

Lemma write_file_Ok p data w w' :
  Os.write_file p data w = (Ok (), w') →
  w' = World (<[p := File data]> (fs w)) (open_docs w) (next_doc w).
Proof.
  unfold Os.write_file.
  repeat case_match; intros [= <-]; done.
Qed.

Lemma write_file_Err p data w e w' :
  Os.write_file p data w = (Err e, w') → w' = w.
Proof.
  unfold Os.write_file.
  repeat case_match; intros [= <-]; done.
Qed.

(** ** The loop of [render] *)

Section render_pages.
Context `{Fitz}.
Variables (d : doc) (zoom : Q) (grayscale single_output : bool).
Variables (folder_name base : string).

Abbreviation out := (out_path single_output folder_name base).
Abbreviation loop :=
  (render_pages d zoom grayscale single_output folder_name base).

Lemma pix_save_Ok pix p w w' :
  pix_save pix p w = (Ok (), w') →
  w' = World (<[p := File (png_bytes pix)]> (fs w)) (open_docs w)
         (next_doc w).
Proof.
  unfold pix_save.
  repeat case_match; intros [= <-]; done.
Qed.

Lemma pix_save_Err pix p w e w' :
  pix_save pix p w = (Err e, w') → w' = w.
Proof.
  unfold pix_save.
  repeat case_match; intros [= <-]; done.
Qed.

(** One turn of the loop that goes through: the page is rendered and its
    bytes are put at its path. *)
Lemma render_pages_cons_Ok p rest saved w r w' :
  loop (p :: rest) saved w = (Ok r, w') →
  ∃ data,
    page_png (loaded d) zoom grayscale p = Some data ∧
    loop rest (saved ++ [out p])
      (World (<[out p := File data]> (fs w)) (open_docs w) (next_doc w))
    = (Ok r, w').
Proof.
  simpl. intros (page & w1 & Hpage & Hrest)%M_bind_Ok.
  apply M_bind_Ok in Hrest as (pix & w2 & Hpix & Hrest).
  apply M_bind_Ok in Hrest as ([] & w3 & Hsave & Hrest).
  apply lift_inv in Hpage as [Hpage ->].
  apply lift_inv in Hpix as [Hpix ->].
  apply pix_save_Ok in Hsave as ->.
  unfold page_png.
  destruct (load_page _ _) as [page'|]; simpl in Hpage |- *; [|done].
  injection Hpage as <-.
  destruct (get_pixmap page zoom) as [pix'|]; simpl in Hpix |- *; [|done].
  injection Hpix as <-.
  eexists. split; [done|]. exact Hrest.
Qed.

Lemma render_pages_Ok page_list saved w r w' :
  loop page_list saved w = (Ok r, w') →
  r = saved ++ (out <$> page_list) ∧
  open_docs w' = open_docs w ∧ next_doc w' = next_doc w ∧
  (∀ q, q ∉ out <$> page_list → fs w' !! q = fs w !! q) ∧
  (∀ q, q ∈ out <$> page_list → ∃ data, fs w' !! q = Some (File data)) ∧
  (∀ p, p ∈ page_list →
     (∀ p', p' ∈ page_list → out p' = out p → p' = p) →
     ∃ data, page_png (loaded d) zoom grayscale p = Some data ∧
             fs w' !! out p = Some (File data)).
Proof.
  revert saved w.
  induction page_list as [|p rest IH]; intros saved w.
  - intros [= <- <-]. rewrite app_nil_r. split_and!; try done.
    + intros q Hq. by apply elem_of_nil in Hq.
    + intros p Hp. by apply elem_of_nil in Hp.
  - intros (data & Hdata & Hrest)%render_pages_cons_Ok.
    apply IH in Hrest as (-> & Hdocs & Hnext & Hframe & Hfiles & Hpngs).
    simpl in *. split_and!; try done.
    + by rewrite <-app_assoc.
    + intros q [Hne Hq]%not_elem_of_cons.
      by rewrite Hframe, lookup_insert_ne.
    + intros q [->|Hq]%elem_of_cons; [|by apply Hfiles].
      destruct (decide (out p ∈ out <$> rest)) as [Hin|Hnotin];
        [by apply Hfiles|].
      exists data. by rewrite Hframe, lookup_insert_eq.
    + intros p0 Hp0 Hinj.
      assert (p0 ∈ rest → ∃ data0,
                page_png (loaded d) zoom grayscale p0 = Some data0 ∧
                fs w' !! out p0 = Some (File data0)) as Hrec.
      { intros Hin. apply Hpngs; [done|].
        intros p' Hp'. apply Hinj. by right. }
      apply elem_of_cons in Hp0 as [->|Hp0]; [|by apply Hrec].
      destruct (decide (out p ∈ out <$> rest)) as [Hin|Hnotin].
      * apply list_elem_of_fmap in Hin as (p' & Heq & Hp').
        assert (p' = p) as -> by (apply Hinj; [by right|done]).
        by apply Hrec.
      * exists data. by rewrite Hframe, lookup_insert_eq.
Qed.

(** Whatever its outcome, the loop opens and closes no document and
    touches no path but those of the pictures. *)
Lemma render_pages_frame page_list saved w r w' :
  loop page_list saved w = (r, w') →
  open_docs w' = open_docs w ∧ next_doc w' = next_doc w ∧
  (∀ q, q ∉ out <$> page_list → fs w' !! q = fs w !! q).
Proof.
  revert saved w. induction page_list as [|p rest IH]; intros saved w.
  - by intros [= <- <-].
  - assert (∀ saved' data,
              loop rest saved'
                (World (<[out p := File data]> (fs w)) (open_docs w)
                   (next_doc w)) = (r, w') →
              open_docs w' = open_docs w ∧ next_doc w' = next_doc w ∧
              (∀ q, q ∉ out <$> p :: rest → fs w' !! q = fs w !! q))
      as Hstep.
    { intros saved' data (Hdocs & Hnext & Hframe)%IH.
      cbn [fs open_docs next_doc] in *. split_and!; try done.
      intros q [Hne Hq]%not_elem_of_cons.
      by rewrite Hframe, lookup_insert_ne. }
    destruct r as [r|e].
    + intros (data & _ & Hrest)%render_pages_cons_Ok. by eapply Hstep.
    + simpl.
      intros [Hpage|(page & w1 & Hpage & Hrest)]%M_bind_Err;
        [by apply lift_inv in Hpage as [_ ->]|].
      apply lift_inv in Hpage as [_ ->].
      apply M_bind_Err in Hrest as [Hpix|(pix & w2 & Hpix & Hrest)];
        [by apply lift_inv in Hpix as [_ ->]|].
      apply lift_inv in Hpix as [_ ->].
      apply M_bind_Err in Hrest as [Hsave|([] & w3 & Hsave & Hrest)];
        [by apply pix_save_Err in Hsave as ->|].
      apply pix_save_Ok in Hsave as ->. by eapply Hstep.
Qed.

End render_pages.

(** ** The names of the files *)

Section names.
Context `{Fitz}.
Implicit Types (base folder : string) (p : Z).

Lemma out_path_join single folder base p :
  out_path single folder base p = Path.join folder (png_name single base p).
Proof. by destruct single. Qed.

Lemma digits_no_slash s :
  Py.all_chars Py.isdigit s = true → Py.contains "/" s = false.
Proof.
  induction s as [|c s IH]; simpl; [done|].
  intros [Hc Hs]%andb_true_iff. rewrite (IH Hs).
  destruct (Ascii.eqb_spec c "/") as [->|]; done.
Qed.

Lemma relative_name stem rest :
  Py.contains "/" stem = false →
  Path.startswith "/" rest = false →
  Path.startswith "/" (stem +:+ rest) = false.
Proof.
  intros Hstem Hrest.
  destruct stem as [|c stem]; [by rewrite append_nil_l|].
  rewrite startswith_append by done.
  destruct (Path.startswith "/" (String c stem)) eqn:Hst; [|done].
  apply startswith_contains in Hst. congruence.
Qed.

Lemma png_name_relative single base p :
  Path.startswith "/" (png_name single base p) = false.
Proof.
  unfold png_name. destruct single;
    by apply relative_name; [apply basename_no_slash|].
Qed.

Lemma png_name_nonempty single base p : png_name single base p ≠ "".
Proof.
  unfold png_name. destruct single; by repeat apply append_nonempty_r.
Qed.

Lemma png_name_no_slash single base p :
  0 ≤ p → Py.contains "/" (png_name single base p) = false.
Proof.
  intros Hp. unfold png_name.
  destruct single; rewrite !contains_append, basename_no_slash; [done|].
  by rewrite (digits_no_slash _ (format_02d_digits p Hp)).
Qed.

Lemma png_name_inj base p1 p2 :
  0 ≤ p1 → 0 ≤ p2 →
  png_name false base p1 = png_name false base p2 → p1 = p2.
Proof.
  unfold png_name. intros H1 H2 Heq.
  do 2 apply (inj (String.append _)) in Heq.
  apply append_inv_tail in Heq. by apply format_02d_inj.
Qed.

Lemma out_path_inj folder base p1 p2 :
  0 ≤ p1 → 0 ≤ p2 →
  out_path false folder base p1 = out_path false folder base p2 → p1 = p2.
Proof.
  intros H1 H2. rewrite !out_path_join.
  intros Heq%join_inj; [|apply png_name_relative..].
  by apply png_name_inj in Heq.
Qed.


Lemma out_path_png single folder base p :
  Path.endswith "g" (out_path single folder base p) = true.
Proof.
  rewrite out_path_join, join_endswith by apply png_name_nonempty.
  unfold png_name.
  destruct single; rewrite ?endswith_append;
    try done; by repeat apply append_nonempty_r.
Qed.

Lemma pdf_copy_path_pdf pdf_path :
  Path.endswith "g" (pdf_copy_path_of pdf_path) = false.
Proof.
  unfold pdf_copy_path_of.
  rewrite join_endswith, endswith_append; try done.
  by apply append_nonempty_r.
Qed.

Lemma pdf_copy_path_basename pdf_path :
  Path.basename (pdf_copy_path_of pdf_path) =
  Path.basename (base_of pdf_path) +:+ ".pdf".
Proof.
  apply basename_join. by rewrite contains_append, basename_no_slash.
Qed.

Lemma out_path_not_copy single pdf_path folder base p :
  out_path single folder base p ≠ pdf_copy_path_of pdf_path.
Proof.
  intros Heq. pose proof (out_path_png single folder base p) as Hg.
  by rewrite Heq, pdf_copy_path_pdf in Hg.
Qed.

Lemma pdf_copy_path_not_folder pdf_path :
  pdf_copy_path_of pdf_path ≠ base_of pdf_path.
Proof.
  apply join_longer.
  - by apply relative_name; [apply basename_no_slash|].
  - by apply append_nonempty_r.
Qed.

(** Nothing that is joined to the folder is the source itself. *)
Lemma join_base_not_source pdf_path name :
  Path.startswith "/" name = false → name ≠ "" →
  Path.join (base_of pdf_path) name ≠ pdf_path.
Proof.
  intros Hrel Hne. unfold base_of.
  destruct (Path.splitext pdf_path) as [base ext] eqn:Hsplit. simpl.
  apply splitext_spec in Hsplit as [Hp [->|(e & -> & Hbase & Hslash)]].
  - rewrite append_nil_r in Hp. subst. by apply join_longer.
  - destruct (join_relative base name Hrel) as [[_ [?|?]]|[-> _]];
      [done|congruence|].
    rewrite Hp. intros Heq%(inj (String.append _)).
    by rewrite append_char in Heq.
Qed.

Lemma out_path_not_source single pdf_path base p :
  out_path single (base_of pdf_path) base p ≠ pdf_path.
Proof.
  rewrite out_path_join.
  apply join_base_not_source;
    [apply png_name_relative|apply png_name_nonempty].
Qed.

End names.

(** ** The ways out of [render] *)

Section render_exits.
Context `{Fitz}.

Lemma M_bind_inv {A B} (m : M A) (k : A → M B) w r w' :
  (m ≫= k) w = (r, w') →
  (∃ e, r = Err e ∧ m w = (Err e, w')) ∨
  (∃ a w1, m w = (Ok a, w1) ∧ k a w1 = (r, w')).
Proof.
  unfold mbind, M_bind. destruct (m w) as [[a|e] w1].
  - right. eauto.
  - intros [= <- <-]. left. eauto.
Qed.

Lemma makedirs_guarded base w r w1 :
  (if negb match fs w !! base with Some _ => true | None => false end
   then Os.makedirs base else mret ()) w = (r, w1) →
  r = Ok () ∧
  w1 = World (make_folder base (fs w)) (open_docs w) (next_doc w).
Proof.
  unfold make_folder, Os.makedirs, mret, M_ret.
  destruct (fs w !! base) eqn:Hbase; simpl; rewrite ?Hbase;
    intros [= <- <-]; by destruct w.
Qed.

Lemma copy_guarded pdf_path w r w1 :
  (if negb match fs w !! pdf_copy_path_of pdf_path with
           | Some _ => true
           | None => false
           end
   then data ← Os.read_file pdf_path;
        Os.write_file (pdf_copy_path_of pdf_path) data
   else mret ()) w = (r, w1) →
  (∃ e, r = Err e ∧ w1 = w ∧ fs w !! pdf_copy_path_of pdf_path = None) ∨
  (r = Ok () ∧
   w1 = World (archive pdf_path (fs w)) (open_docs w) (next_doc w) ∧
   (fs w !! pdf_copy_path_of pdf_path = None →
    ∃ data2, fs w !! pdf_path = Some (File data2))).
Proof.
  unfold archive, mret, M_ret.
  destruct (fs w !! pdf_copy_path_of pdf_path) eqn:Hthere; simpl.
  { intros [= <- <-]. right. by destruct w. }
  intros [(e & -> & Hread)|(data & w2 & Hread & Hwrite)]%M_bind_inv.
  - left. exists e. unfold Os.read_file in Hread.
    by repeat case_match; simplify_eq.
  - unfold Os.read_file in Hread.
    destruct (fs w !! pdf_path) as [[data2|]|] eqn:Hsrc; simplify_eq.
    destruct r as [[]|e].
    + apply write_file_Ok in Hwrite as ->. right. eauto.
    + apply write_file_Err in Hwrite as ->. left. eauto.
Qed.

Lemma render_exits pdf_path dpi pages grayscale w r w' :
  render pdf_path dpi pages grayscale w = (r, w') →
  render_exit pdf_path dpi pages grayscale w r w'.
Proof.
  unfold render.
  intros [(e & _ & [=])|(isfile & w1 & [= <- <-] & Hrun)]%M_bind_inv.
  destruct (fs w !! pdf_path) as [[data|]|] eqn:Hsrc; simpl in Hrun;
    [|injection Hrun as <- <-; apply exit_not_a_file; congruence..].
  apply M_bind_inv in Hrun as [(e & -> & Hopen)|(d & w1 & Hopen & Hrun)];
    unfold fitz_open in Hopen; rewrite Hsrc in Hopen;
    destruct (fitz_load data) as [ld|] eqn:Hload; try done.
  { injection Hopen as <- <-. by eapply exit_open_raises. }
  injection Hopen as <- <-.
  apply M_bind_inv in Hrun as [(e & -> & Hpages)|(pl & w1 & Hpages & Hrun)];
    apply lift_inv in Hpages as [Hpages ->].
  { by eapply exit_pages_raises. }
  cbn [loaded] in *. fold (opened w) in Hrun.
  apply M_bind_inv in Hrun
    as [(e & _ & [=])|(there & w1 & [= <- <-] & Hrun)].
  apply M_bind_inv in Hrun as [(e & -> & Hmk)|([] & w1 & Hmk & Hrun)];
    change (fs w !! base_of pdf_path)
      with (fs (opened w) !! base_of pdf_path) in Hmk;
    apply makedirs_guarded in Hmk as [? ->]; [done|].
  change (World _ _ _) with (loop_start pdf_path w) in Hrun.
  apply M_bind_inv in Hrun as [(e & -> & Hzoom)|(zoom & w1 & Hzoom & Hrun)];
    apply lift_inv in Hzoom as [Hzoom ->]; unfold Py.truediv in Hzoom;
    destruct (Py.float_fits dpi) eqn:Hfits; simplify_eq.
  { by eapply exit_zoom_raises. }
  change (inject_Z dpi / 72)%Q with (zoom_of dpi) in Hrun.
  apply M_bind_inv in Hrun
    as [(e & -> & Hloop)|(saved & w2 & Hloop & Hrun)].
  { by eapply exit_loop_raises. }
  apply M_bind_inv in Hrun
    as [(e & _ & [=])|(there & w3 & [= <- <-] & Hrun)].
  apply M_bind_inv in Hrun as [(e & -> & Hcopy)|([] & w3 & Hcopy & Hrun)];
    apply copy_guarded in Hcopy
      as [(e' & ? & -> & Hthere)|(? & -> & Hsrc2)]; simplify_eq.
  - by eapply exit_copy_raises.
  - apply M_bind_inv in Hrun as [(e & _ & [=])|([] & w4 & [= <-] & Hrun)].
    injection Hrun as <- <-. cbn [fs open_docs next_doc handle].
    by eapply exit_return.
Qed.

End render_exits.

(** ** A run of [render] that returns *)

Section render_returns.
Context `{Fitz}.

Lemma lookup_make_folder_ne base (m : gmap string node) q :
  q ≠ base → make_folder base m !! q = m !! q.
Proof.
  intros Hne. unfold make_folder.
  destruct (m !! base); [done|]. by rewrite lookup_insert_ne.
Qed.

Lemma lookup_make_folder_Some base (m : gmap string node) q n :
  m !! q = Some n → make_folder base m !! q = Some n.
Proof.
  intros Hq. unfold make_folder.
  destruct (m !! base) eqn:Hbase; [done|].
  rewrite lookup_insert_ne; [done|congruence].
Qed.

Lemma lookup_archive_ne pdf_path (m : gmap string node) q :
  q ≠ pdf_copy_path_of pdf_path → archive pdf_path m !! q = m !! q.
Proof.
  intros Hne. unfold archive. repeat case_match; try done.
  by rewrite lookup_insert_ne.
Qed.

Lemma lookup_archive_Some pdf_path (m : gmap string node) q n :
  m !! q = Some n → archive pdf_path m !! q = Some n.
Proof.
  intros Hq. unfold archive. repeat case_match; try done.
  rewrite lookup_insert_ne; [done|congruence].
Qed.

Lemma lookup_archive_copy pdf_path (m : gmap string node) data :
  m !! pdf_path = Some (File data) →
  archive pdf_path m !! pdf_copy_path_of pdf_path =
  match m !! pdf_copy_path_of pdf_path with
  | Some n => Some n
  | None => Some (File data)
  end.
Proof.
  intros Hsrc. unfold archive. rewrite Hsrc.
  destruct (m !! pdf_copy_path_of pdf_path) eqn:Hcopy; [done|].
  by rewrite lookup_insert_eq.
Qed.

Lemma render_Ok pdf_path dpi pages grayscale w saved w' :
  render pdf_path dpi pages grayscale w = (Ok saved, w') →
  ∃ data d page_list,
    returned pdf_path dpi pages grayscale w saved w' data d page_list.
Proof.
  intros Hrun%render_exits.
  inversion Hrun as [| | | | | |data d page_list saved' w2
                                 Hsrc Hload Hpages Hfits Hloop Hsrc2]; subst.
  exists data, d, page_list.
  pose proof (parse_pages_Ok_bounds _ _ _ Hpages) as Hbounds.
  apply render_pages_Ok in Hloop
    as (-> & Hdocs & Hnext & Hframe & _ & Hpngs).
  set (out := out_path (length page_list =? 1)%nat (base_of pdf_path)
                (base_of pdf_path)) in *.
  assert (∀ p, out p ≠ pdf_path) as Hnotsrc.
  { intros p. apply out_path_not_source. }
  assert (fs w2 !! pdf_path = Some (File data)) as Hkept.
  { rewrite Hframe.
    - by apply lookup_make_folder_Some.
    - intros (p & Heq & _)%list_elem_of_fmap. by eapply Hnotsrc. }
  assert (pdf_copy_path_of pdf_path ∉ out <$> page_list) as Hcopy.
  { intros (p & Heq & _)%list_elem_of_fmap.
    by eapply out_path_not_copy. }
  split; cbn [fs open_docs next_doc]; try done.
  - by apply lookup_archive_Some.
  - intros p Hp.
    destruct (Hpngs p Hp) as (png & Hpng & Hfile).
    { intros p' Hp' Heq. unfold out in Heq.
      destruct (length page_list =? 1)%nat eqn:Hlen.
      - apply Nat.eqb_eq in Hlen.
        destruct page_list as [|p0 [|]]; simplify_eq/=.
        apply list_elem_of_singleton in Hp as ->.
        by apply list_elem_of_singleton in Hp' as ->.
      - eapply out_path_inj; [| |done].
        + apply (Hbounds p') in Hp'. lia.
        + apply (Hbounds p) in Hp. lia. }
    exists png. split; [done|].
    rewrite lookup_archive_ne by apply out_path_not_copy. done.
  - rewrite (lookup_archive_copy _ _ data) by done.
    rewrite Hframe by done. cbn [fs loop_start].
    by rewrite lookup_make_folder_ne by apply pdf_copy_path_not_folder.
  - intros q Hq Hne1 Hne2.
    rewrite lookup_archive_ne, Hframe by done. cbn [fs loop_start].
    by rewrite lookup_make_folder_ne.
  - by rewrite Hdocs.
Qed.

(** A run that returns has closed its document. *)
Lemma render_Ok_closed pdf_path dpi pages grayscale w saved w' :
  render pdf_path dpi pages grayscale w = (Ok saved, w') →
  next_doc w ∉ open_docs w'.
Proof.
  intros (data & d & page_list & Hret)%render_Ok.
  rewrite (ret_closed _ _ _ _ _ _ _ _ _ _ Hret).
  rewrite elem_of_difference, elem_of_singleton. by intros [_ []].
Qed.

(** A run that raises after the document was opened has not closed
    it. *)
Lemma render_Err_open pdf_path dpi pages grayscale w e w' data d :
  render pdf_path dpi pages grayscale w = (Err e, w') →
  fs w !! pdf_path = Some (File data) →
  fitz_load data = Some d →
  next_doc w ∈ open_docs w'.
Proof.
  intros Hrun%render_exits Hsrc Hload.
  inversion Hrun as [Hnot|data' ? Hnone|data' d' e' ? ? Hpages
                     |data' d' pl ? ? ? Hfits
                     |data' d' pl e' w2 ? ? ? ? Hloop
                     |data' d' pl saved e' w2 ? ? ? ? Hloop|]; subst.
  - by destruct (Hnot data).
  - congruence.
  - simpl. set_solver.
  - simpl. set_solver.
  - apply render_pages_frame in Hloop as (-> & _). simpl. set_solver.
  - apply render_pages_frame in Hloop as (-> & _). simpl. set_solver.
Qed.

(** A run that raises has not written the copy of the source. *)
Lemma render_Err_copy pdf_path dpi pages grayscale w e w' :
  render pdf_path dpi pages grayscale w = (Err e, w') →
  fs w' !! pdf_copy_path_of pdf_path = fs w !! pdf_copy_path_of pdf_path.
Proof.
  intros Hrun%render_exits.
  assert (fs (loop_start pdf_path w) !! pdf_copy_path_of pdf_path
          = fs w !! pdf_copy_path_of pdf_path) as Hstart.
  { cbn [fs loop_start].
    by rewrite lookup_make_folder_ne by apply pdf_copy_path_not_folder. }
  inversion Hrun as [Hnot|data' ? Hnone|data' d' e' ? ? Hpages
                     |data' d' pl ? ? ? Hfits
                     |data' d' pl e' w2 ? ? ? ? Hloop
                     |data' d' pl saved e' w2 ? ? ? ? Hloop|]; subst;
    try done.
  all: apply render_pages_frame in Hloop as (_ & _ & ->); [done|].
  all: intros (p & Heq & _)%list_elem_of_fmap;
    by eapply out_path_not_copy.
Qed.

(** No run, returning or raising, touches the source. *)
Lemma render_source_kept pdf_path dpi pages grayscale w r w' :
  render pdf_path dpi pages grayscale w = (r, w') →
  fs w' !! pdf_path = fs w !! pdf_path.
Proof.
  destruct r as [saved|e].
  { intros (data & d & page_list & Hret)%render_Ok.
    destruct Hret as [Hsrc _ _ _ Hkept _ _ _ _ _]. congruence. }
  intros Hrun%render_exits.
  assert (∀ data, fs w !! pdf_path = Some (File data) →
            fs (loop_start pdf_path w) !! pdf_path = fs w !! pdf_path)
    as Hstart.
  { intros data Hsrc. cbn [fs loop_start]. rewrite Hsrc.
    by apply lookup_make_folder_Some. }
  inversion Hrun as [Hnot|data' ? Hnone|data' d' e' ? ? Hpages
                     |data' d' pl ? ? ? Hfits
                     |data' d' pl e' w2 ? ? ? ? Hloop
                     |data' d' pl saved e' w2 ? ? ? ? Hloop|]; subst;
    try done.
  - by eapply Hstart.
  - apply render_pages_frame in Hloop as (_ & _ & ->); [by eapply Hstart|].
    intros (p & Heq & _)%list_elem_of_fmap. by eapply out_path_not_source.
  - apply render_pages_frame in Hloop as (_ & _ & ->); [by eapply Hstart|].
    intros (p & Heq & _)%list_elem_of_fmap. by eapply out_path_not_source.
Qed.

(** A run that returns had a [dpi] that fits a float. *)
Lemma render_Ok_fits pdf_path dpi pages grayscale w saved w' :
  render pdf_path dpi pages grayscale w = (Ok saved, w') →
  Py.float_fits dpi = true.
Proof.
  intros Hrun%render_exits. by inversion Hrun.
Qed.

End render_returns.

(** ** The exporter *)

Section exporter.
Context `{Fitz}.


(** C8.  A run of [render] that returns, returns the paths of the
    pictures it wrote: one for each selected page, in the order of the
    pages, which is ascending.  The path of the copy of the source is
    not among them, although the copy is there. *)
Theorem render_returns_png_paths pdf_path dpi pages grayscale w saved w' :
  render pdf_path dpi pages grayscale w = (Ok saved, w') →
  ∃ data d page_list,
    fs w !! pdf_path = Some (File data) ∧
    fitz_load data = Some d ∧
    parse_pages pages (page_count d) = Ok page_list ∧
    StronglySorted Z.lt page_list ∧
    length saved = length page_list ∧
    (∀ i p, page_list !! i = Some p →
       ∃ q png, saved !! i = Some q ∧
                q = out_path (length page_list =? 1)%nat (base_of pdf_path)
                      (base_of pdf_path) p ∧
                page_png d (zoom_of dpi) grayscale p = Some png ∧
                fs w' !! q = Some (File png)) ∧
    (pdf_copy_path_of pdf_path ∉ saved) ∧
    is_Some (fs w' !! pdf_copy_path_of pdf_path).
Proof.
  intros (data & d & page_list & Hret)%render_Ok.
  destruct Hret as [Hsrc Hload Hpages Hsaved _ Hpngs Hcopy _ _ _].
  exists data, d, page_list. split_and!; try done.
  - by eapply parse_pages_Ok_ascending.
  - by rewrite Hsaved, length_fmap.
  - intros i p Hi.
    destruct (Hpngs p) as (png & Hpng & Hfile);
      [by eapply list_elem_of_lookup_2|].
    eexists _, png. split_and!; [|done..].
    by rewrite Hsaved, list_lookup_fmap, Hi.
  - rewrite Hsaved. intros (p & Heq & _)%list_elem_of_fmap.
    by eapply out_path_not_copy.
  - rewrite Hcopy. by destruct (fs w !! pdf_copy_path_of pdf_path).
Qed.

(** C4, as the code has it.  [render] copies the source only once the
    loop over the pages is through: a run that raises leaves the path
    of the copy as it was.  A run that returns has put the bytes of the
    source into the folder under the name [<basename>.pdf], [basename]
    being the name of the source without its extension, if nothing was
    at that path; what was there before is kept.  The source itself is
    not touched by any run, returning or raising.  A second run,
    returning or raising, leaves the copy as the first run left it,
    equal to the source when the first run made it. *)
Theorem render_archives_source pdf_path dpi pages grayscale w r w' :
  render pdf_path dpi pages grayscale w = (r, w') →
  let copy := pdf_copy_path_of pdf_path in
  fs w' !! pdf_path = fs w !! pdf_path ∧
  match r with
  | Err _ => fs w' !! copy = fs w !! copy
  | Ok _ =>
      ∃ data,
        fs w !! pdf_path = Some (File data) ∧
        fs w' !! pdf_path = Some (File data) ∧
        copy = Path.join (base_of pdf_path)
                 (Path.basename (base_of pdf_path) +:+ ".pdf") ∧
        Path.basename copy = Path.basename (base_of pdf_path) +:+ ".pdf" ∧
        (fs w !! copy = None → fs w' !! copy = Some (File data)) ∧
        (∀ n, fs w !! copy = Some n → fs w' !! copy = Some n) ∧
        (∀ dpi2 pages2 grayscale2 r2 w'',
           render pdf_path dpi2 pages2 grayscale2 w' = (r2, w'') →
           fs w'' !! copy = fs w' !! copy ∧
           fs w'' !! pdf_path = Some (File data))
  end.
Proof.
  intros Hrun copy. split; [by eapply render_source_kept|].
  destruct r as [saved|e]; [|by eapply render_Err_copy].
  apply render_Ok in Hrun as (data & d & page_list & Hret).
  destruct Hret as [Hsrc _ _ _ Hkept _ Hcopy _ _ _].
  fold copy in Hcopy. exists data. split_and!; try done.
  - apply pdf_copy_path_basename.
  - intros Hnone. by rewrite Hcopy, Hnone.
  - intros n Hn. by rewrite Hcopy, Hn.
  - intros dpi2 pages2 grayscale2 r2 w'' Hrun2.
    split; [|by rewrite (render_source_kept _ _ _ _ _ _ _ Hrun2)].
    destruct r2 as [saved2|e2]; [|by eapply render_Err_copy].
    apply render_Ok in Hrun2 as (data2 & d2 & page_list2 & Hret2).
    destruct Hret2 as [Hsrc2 _ _ _ Hkept2 _ Hcopy2 _ _ _].
    fold copy in Hcopy2.
    rewrite Hcopy2. destruct (fs w' !! copy) eqn:Hthere; [done|].
    rewrite Hcopy in Hthere. by destruct (fs w !! copy).
Qed.

(** C9, as the code has it.  The list [parse_pages] returns is not empty
    when the document has a page or the specification is not empty.
    For a document without pages and an absent or empty specification
    it is empty, and [render] does not raise for that: when it returns,
    it returns as many paths as pages were selected, here none. *)
Theorem parse_pages_nonempty pages_arg num_pages page_list :
  parse_pages pages_arg num_pages = Ok page_list →
  (1 ≤ num_pages ∨ falsy pages_arg = false → page_list ≠ []) ∧
  (num_pages ≤ 0 → falsy pages_arg = true → page_list = []) ∧
  (∀ pdf_path dpi grayscale w saved w' data d,
     fs w !! pdf_path = Some (File data) →
     fitz_load data = Some d →
     page_count d = num_pages →
     render pdf_path dpi pages_arg grayscale w = (Ok saved, w') →
     length saved = length page_list).
Proof.
  intros Hpages. split_and!.
  - apply parse_pages_Ok_inv in Hpages
      as [[Hf ->]|(s & out & -> & Hs & Hloop & ->)].
    + intros [Hn|?] Hnil; [|congruence].
      apply (f_equal length) in Hnil. unfold Py.range in Hnil.
      rewrite length_seqZ in Hnil. simpl in Hnil. lia.
    + intros _ Hnil.
      destruct (Py.split "," s) as [|part rest] eqn:Hsplit.
      { by destruct s as [|c s]; simpl in Hsplit; repeat case_match. }
      simpl in Hloop.
      apply res_bind_Ok in Hloop as (mid & Hpart & Hrest).
      apply parse_part_Ok in Hpart as (new & [x Hx]%accepts_nonempty & ->).
      apply parse_loop_grows in Hrest.
      assert (x ∈ Py.sorted out) as Hin.
      { apply elem_of_sorted, Hrest, elem_of_union. by right. }
      rewrite Hnil in Hin. by apply elem_of_nil in Hin.
  - intros Hn Hf. unfold parse_pages in Hpages. rewrite Hf in Hpages.
    injection Hpages as <-. unfold Py.range. apply seqZ_nil. lia.
  - intros pdf_path dpi grayscale w saved w' data d Hsrc Hload <-
      (data' & d' & page_list' & Hret)%render_Ok.
    destruct Hret as [Hsrc' Hload' Hpages' -> _ _ _ _ _ _].
    rewrite length_fmap. congruence.
Qed.

End exporter.

(** ** Runs on concrete documents *)


Lemma render_returns_png_paths_witness :
  let run := render "docs/report.pdf" 300 None true Toy.report_world in
  let saved := ["docs/report/report_p01.png"; "docs/report/report_p02.png";
                "docs/report/report_p03.png"] in
  run.1 = Ok saved ∧
  (pdf_copy_path_of "docs/report.pdf" ∉ saved) ∧
  is_Some (fs run.2 !! pdf_copy_path_of "docs/report.pdf").
Proof.
  intros run saved.
  assert (run = (Ok saved, run.2)) as Hrun by (vm_compute; reflexivity).
  destruct (render_returns_png_paths _ _ _ _ _ _ _ Hrun)
    as (data & d & page_list & _ & _ & _ & _ & _ & _ & Hnot & Hcopy).
  split_and!; [by rewrite Hrun|exact Hnot|exact Hcopy].
Defined.

Lemma render_archives_source_witness :
  let run1 := render "docs/report.pdf" 300 None false Toy.report_world in
  let run2 := render "docs/report.pdf" 150 (Some "1") true run1.2 in
  (∃ saved, run1.1 = Ok saved) ∧ (∃ saved2, run2.1 = Ok saved2) ∧
  fs run1.2 !! "docs/report/report.pdf" = Some (File (Toy.pdf "Pabc")) ∧
  fs run2.2 !! "docs/report/report.pdf" = Some (File (Toy.pdf "Pabc")).
Proof.
  intros run1 run2.
  assert (∃ saved, run1 = (Ok saved, run1.2)) as [saved Hrun]
    by (eexists; vm_compute; reflexivity).
  assert (∃ saved2, run2 = (Ok saved2, run2.2)) as [saved2 Hrun2]
    by (eexists; vm_compute; reflexivity).
  pose proof (render_archives_source _ _ _ _ _ _ _ Hrun)
    as (_ & data & Hsrc & _ & _ & _ & Hmade & _ & Hagain).
  assert (data = Toy.pdf "Pabc") as ->.
  { vm_compute in Hsrc. injection Hsrc as <-. vm_compute. reflexivity. }
  assert (fs run1.2 !! "docs/report/report.pdf"
          = Some (File (Toy.pdf "Pabc"))) as Hcopy
    by (apply Hmade; vm_compute; reflexivity).
  destruct (Hagain _ _ _ _ _ Hrun2) as [Hsame _].
  split_and!.
  - exists saved. by rewrite Hrun.
  - exists saved2. by rewrite Hrun2.
  - exact Hcopy.
  - etrans; [exact Hsame|exact Hcopy].
Defined.

(** The copy does not carry the name of the source when the extension of
    the source is not [.pdf]: the run on [scan.PDF] returns, the folder is
    [scan], the copy is [scan/scan.pdf], and nothing is in the folder
    under the name of the source, [scan.PDF]. *)
Lemma render_archive_name_counterexample :
  ∃ w',
    render "scan.PDF" 72 None false Toy.scan_world
    = (Ok ["scan/scan.png"], w') ∧
    base_of "scan.PDF" = "scan" ∧
    Path.basename "scan.PDF" = "scan.PDF" ∧
    fs w' !! Path.join (base_of "scan.PDF") (Path.basename "scan.PDF")
    = None ∧
    fs w' !! "scan/scan.pdf" = Some (File (Toy.pdf "Pa")).
Proof.
  eexists. split_and!; vm_compute; reflexivity.
Qed.

Lemma parse_pages_nonempty_witness :
  parse_pages (Some "2") 3 = Ok [2] ∧ [2] ≠ [] ∧
  parse_pages None 0 = Ok [] ∧
  ∃ w', render "empty.pdf" 72 None false Toy.empty_world = (Ok [], w').
Proof.
  assert (parse_pages (Some "2") 3 = Ok [2]) as Hsome
    by (vm_compute; reflexivity).
  assert (parse_pages None 0 = Ok []) as Hnone by (vm_compute; reflexivity).
  split_and!; [done| |done|].
  - apply (parse_pages_nonempty (Some "2") 3 [2] Hsome). by left.
  - eexists. vm_compute. reflexivity.
Defined.

(** A document without pages is no error: with no specification the list
    of pages is empty, and [render] returns the empty list after it has
    made the folder and copied the source. *)
Lemma render_zero_pages_counterexample :
  page_count <$> fitz_load (Toy.pdf "P") = Some 0 ∧
  parse_pages None 0 = Ok [] ∧
  ∃ w',
    render "empty.pdf" 72 None false Toy.empty_world = (Ok [], w') ∧
    fs w' !! "empty" = Some Dir ∧
    fs w' !! "empty/empty.pdf" = Some (File (Toy.pdf "P")).
Proof.
  split_and!; [vm_compute; reflexivity..|].
  eexists. split_and!; vm_compute; reflexivity.
Qed.

(** C3, against the code.  [render] closes the document on its last line
    only.  With the page 9 asked of a report of three pages, the
    [ValueError] of [parse_pages] leaves document 0 open; so does the
    failure to render the second page of a report while the loop is at
    it.  The run that returns has closed it. *)
Theorem render_leaves_document_open :
  (∃ w',
     render "docs/report.pdf" 300 (Some "9") false Toy.report_world
     = (Err (ValueError "Invalid page number: 9"), w') ∧
     next_doc Toy.report_world = 0%nat ∧ 0%nat ∈ open_docs w') ∧
  (∃ w',
     render "docs/report.pdf" 300 None false Toy.broken_world
     = (Err FitzError, w') ∧
     next_doc Toy.broken_world = 0%nat ∧ 0%nat ∈ open_docs w') ∧
  (∃ saved w',
     render "docs/report.pdf" 300 None false Toy.report_world
     = (Ok saved, w') ∧
     0%nat ∉ open_docs w').
Proof.
  split_and!.
  - eexists.
    match goal with
    | |- ?run ∧ _ => assert run as Hrun by (vm_compute; reflexivity)
    end.
    split_and!; [exact Hrun|done|].
    by apply (render_Err_open _ _ _ _ _ _ _ _ _ Hrun eq_refl eq_refl).
  - eexists.
    match goal with
    | |- ?run ∧ _ => assert run as Hrun by (vm_compute; reflexivity)
    end.
    split_and!; [exact Hrun|done|].
    by apply (render_Err_open _ _ _ _ _ _ _ _ _ Hrun eq_refl eq_refl).
  - do 2 eexists.
    match goal with
    | |- ?run ∧ _ => assert run as Hrun by (vm_compute; reflexivity)
    end.
    split; [exact Hrun|].
    apply (render_Ok_closed _ _ _ _ _ _ _ Hrun).
Qed.

(** * More of [render.py] *)

(** ** More on the loop of [parse_pages] *)

Section tokens.
Variable num_pages : Z.

Lemma parse_token_accepts out part new :
  accepts num_pages part new →
  parse_token num_pages out part = Ok (out ∪ new).
Proof.
  unfold parse_token. destruct 1 as [p Hc Hp Hin|sa sb a b Hs Ha Hb Hin].
  - rewrite Hc, Hp. simpl.
    replace ((p <? 1) || (p >? num_pages)) with false
      by (symmetry; apply orb_false_iff; lia).
    by rewrite (comm_L (∪)).
  - assert (Py.contains "-" part = true) as ->.
    { apply split1_contains. by rewrite Hs. }
    rewrite Hs, Ha. simpl. rewrite Hb. simpl.
    replace ((a <? 1) || (b <? 1) || (a >? num_pages) || (b >? num_pages)
             || (a >? b)) with false; [done|].
    symmetry. rewrite !orb_false_iff. lia.
Qed.

Lemma accepts_selects part new p :
  accepts num_pages part new → p ∈ new ↔ selects part p.
Proof.
  destruct 1 as [q Hc Hq Hin|sa sb a b Hs Ha Hb Hin].
  - rewrite elem_of_singleton. split.
    + intros ->. by left.
    + intros [[_ Hp]|(sa & sb & a & b & Hs & _)]; [congruence|].
      assert (Py.contains "-" part = true); [|congruence].
      apply split1_contains. by rewrite Hs.
  - rewrite elem_of_list_to_set, elem_of_range. split.
    + intros Hp. right. exists sa, sb, a, b. split_and!; try done; lia.
    + intros [[Hc _]|(sa' & sb' & a' & b' & Hs' & Ha' & Hb' & Hp)].
      * assert (Py.contains "-" part = true); [|congruence].
        apply split1_contains. by rewrite Hs.
      * simplify_eq. rewrite Ha in Ha'. rewrite Hb in Hb'. simplify_eq. lia.
Qed.

Lemma accepts_mono part new m :
  accepts num_pages part new → num_pages ≤ m → accepts m part new.
Proof.
  destruct 1 as [q Hc Hq Hin|sa sb a b Hs Ha Hb Hin]; intros Hm.
  - apply accepts_number; [done..|lia].
  - eapply accepts_range; [done..|lia].
Qed.

(** The loop returns exactly when every token is accepted, and then with
    what the tokens add. *)
Lemma parse_loop_Ok_tokens out parts out' :
  parse_loop num_pages out parts = Ok out' →
  Forall (λ tok, ∃ new, accepts num_pages (Py.strip tok) new) parts ∧
  ∀ p, p ∈ out' ↔
       p ∈ out ∨ ∃ tok, tok ∈ parts ∧ selects (Py.strip tok) p.
Proof.
  revert out. induction parts as [|part rest IH]; simpl; intros out.
  - intros [= <-]. split; [done|]. intros p. split; [by left|].
    intros [?|(tok & Hin & _)]; [done|]. by apply elem_of_nil in Hin.
  - intros (mid & (new & Hacc & ->)%parse_part_Ok & Hrest)%res_bind_Ok.
    apply IH in Hrest as [Hall Hmem]. split; [constructor; eauto|].
    intros p. rewrite Hmem, elem_of_union, (accepts_selects _ _ _ Hacc).
    split.
    + intros [[?|?]|(tok & Hin & Hn)]; [by left|right..].
      * exists part. split; [by left|done].
      * exists tok. split; [by right|done].
    + intros [?|(tok & [->|Hin]%elem_of_cons & Hn)]; [by left; left| |].
      * by left; right.
      * right. by exists tok.
Qed.

Lemma parse_loop_accepted out parts :
  Forall (λ tok, ∃ new, accepts num_pages (Py.strip tok) new) parts →
  ∃ out', parse_loop num_pages out parts = Ok out'.
Proof.
  intros Hall. revert out.
  induction Hall as [|part rest [new Hacc] _ IH]; intros out; simpl.
  - by eexists.
  - unfold parse_part. rewrite (parse_token_accepts _ _ _ Hacc). simpl.
    apply IH.
Qed.

End tokens.

(** ** What [parse_pages] selects *)

(** X1. For a non-empty specification that [parse_pages] resolves, a
    page is in the list returned exactly when one of the comma-separated
    tokens, stripped, selects it: the token is that number as [int]
    reads it, or a range whose two ends, as [int] reads them, enclose
    the page. *)
Theorem parse_pages_selects s num_pages l p :
  s ≠ EmptyString →
  parse_pages (Some s) num_pages = Ok l →
  p ∈ l ↔ ∃ tok, tok ∈ Py.split "," s ∧ selects (Py.strip tok) p.
Proof.
  intros Hs. rewrite parse_pages_loop by done.
  intros (out & [_ Hmem]%parse_loop_Ok_tokens & [= <-])%res_bind_Ok.
  rewrite elem_of_sorted, Hmem. split; [|by right].
  intros [Hp|?]; [|done]. by apply not_elem_of_empty in Hp.
Qed.

Lemma parse_pages_selects_witness :
  parse_pages (Some "4-6, 2") 9 = Ok [2; 4; 5; 6] ∧
  (5 ∈ [2; 4; 5; 6] ↔
   ∃ tok, tok ∈ Py.split "," "4-6, 2" ∧ selects (Py.strip tok) 5).
Proof.
  assert (parse_pages (Some "4-6, 2") 9 = Ok [2; 4; 5; 6]) as Hrun
    by (vm_compute; reflexivity).
  split; [exact Hrun|].
  by apply (parse_pages_selects "4-6, 2" 9 [2; 4; 5; 6] 5).
Defined.

(** X2. [parse_pages] returns a list for a non-empty specification
    exactly when every comma-separated token, stripped, is accepted on
    its own: a number or a range within the pages of the document.  No
    token is refused because of another one. *)
Theorem parse_pages_returns_iff s num_pages :
  s ≠ EmptyString →
  (∃ l, parse_pages (Some s) num_pages = Ok l) ↔
  ∀ tok, tok ∈ Py.split "," s →
         ∃ new, accepts num_pages (Py.strip tok) new.
Proof.
  intros Hs. rewrite parse_pages_loop by done.
  rewrite <-Forall_forall. split.
  - intros (l & (out & [Hall _]%parse_loop_Ok_tokens & _)%res_bind_Ok).
    exact Hall.
  - intros [out Hout]%(parse_loop_accepted _ ∅).
    exists (Py.sorted out). by rewrite Hout.
Qed.

Lemma parse_pages_returns_iff_witness :
  (∃ l, parse_pages (Some "3,1-2") 5 = Ok l) ↔
  ∀ tok, tok ∈ Py.split "," "3,1-2" → ∃ new, accepts 5 (Py.strip tok) new.
Proof. by apply (parse_pages_returns_iff "3,1-2" 5). Defined.

(** X3. The list returned depends on which tokens occur, not on their
    order nor on how often one occurs: two non-empty specifications with
    the same tokens, the first of which is resolved, resolve to the same
    list. *)
Theorem parse_pages_token_order s1 s2 num_pages l :
  s1 ≠ EmptyString → s2 ≠ EmptyString →
  (∀ tok, tok ∈ Py.split "," s1 ↔ tok ∈ Py.split "," s2) →
  parse_pages (Some s1) num_pages = Ok l →
  parse_pages (Some s2) num_pages = Ok l.
Proof.
  intros Hs1 Hs2 Hsame. rewrite !parse_pages_loop by done.
  intros (out1 & [Hall1 Hmem1]%parse_loop_Ok_tokens & [= <-])%res_bind_Ok.
  destruct (parse_loop_accepted num_pages ∅ (Py.split "," s2)) as [out2 Hout2].
  { rewrite Forall_forall in Hall1 |- *.
    intros tok Htok. by apply Hall1, Hsame. }
  rewrite Hout2. simpl. do 2 f_equal.
  apply parse_loop_Ok_tokens in Hout2 as [_ Hmem2].
  apply set_eq. intros p. rewrite Hmem1, Hmem2.
  by setoid_rewrite Hsame.
Qed.

Lemma parse_pages_token_order_witness :
  parse_pages (Some "2-4,1") 10 = Ok [1; 2; 3; 4] ∧
  parse_pages (Some "1,2-4,1,2-4") 10 = Ok [1; 2; 3; 4].
Proof.
  assert (parse_pages (Some "2-4,1") 10 = Ok [1; 2; 3; 4]) as Hrun
    by (vm_compute; reflexivity).
  split; [exact Hrun|].
  apply (parse_pages_token_order "2-4,1" "1,2-4,1,2-4" 10); [done..| |done].
  intros tok. vm_compute Py.split.
  rewrite !elem_of_cons, !elem_of_nil. tauto.
Defined.

(** X4. A non-empty specification resolved for a document of [n] pages
    resolves to the same list for every document with at least as many
    pages. *)
Theorem parse_pages_more_pages s n m l :
  s ≠ EmptyString → n ≤ m →
  parse_pages (Some s) n = Ok l →
  parse_pages (Some s) m = Ok l.
Proof.
  intros Hs Hnm. rewrite !parse_pages_loop by done.
  intros (out & Hloop & [= <-])%res_bind_Ok.
  assert (∀ parts acc out',
            parse_loop n acc parts = Ok out' →
            parse_loop m acc parts = Ok out') as Hmono.
  { induction parts as [|part rest IH]; simpl; intros acc out'; [done|].
    intros (mid & (new & Hacc & ->)%parse_part_Ok & Hrest)%res_bind_Ok.
    unfold parse_part.
    rewrite (parse_token_accepts m acc _ new) by by eapply accepts_mono.
    simpl. by apply IH. }
  by rewrite (Hmono _ _ _ Hloop).
Qed.

Lemma parse_pages_more_pages_witness :
  parse_pages (Some "1,3-5") 5 = Ok [1; 3; 4; 5] ∧
  parse_pages (Some "1,3-5") 12 = Ok [1; 3; 4; 5].
Proof.
  assert (parse_pages (Some "1,3-5") 5 = Ok [1; 3; 4; 5]) as Hrun
    by (vm_compute; reflexivity).
  split; [exact Hrun|].
  apply (parse_pages_more_pages "1,3-5" 5 12); [done|lia|exact Hrun].
Defined.

Lemma ascending_length (l : list Z) a b :
  StronglySorted Z.lt l → Forall (λ p, a ≤ p ≤ b) l →
  Z.of_nat (length l) ≤ Z.max 0 (b - a + 1).
Proof.
  intros Hl. revert a. induction Hl as [|x l Hl IH Hx]; intros a Hb.
  - simpl. lia.
  - apply Forall_cons in Hb as [Hxb Hb].
    assert (Forall (λ p, x + 1 ≤ p ≤ b) l) as Hb'.
    { rewrite Forall_forall in Hx, Hb |- *. intros y Hy.
      specialize (Hx y Hy). specialize (Hb y Hy). lia. }
    specialize (IH _ Hb'). simpl length. lia.
Qed.

(** X5. The list [parse_pages] returns never has more entries than the
    document has pages, however many tokens the specification has. *)
Theorem parse_pages_length pages_arg num_pages l :
  parse_pages pages_arg num_pages = Ok l →
  Z.of_nat (length l) ≤ Z.max 0 num_pages.
Proof.
  intros Hpages.
  pose proof (ascending_length l 1 num_pages) as Hlen.
  replace (num_pages - 1 + 1) with num_pages in Hlen by lia.
  apply Hlen.
  - by eapply parse_pages_Ok_ascending.
  - apply Forall_forall. by eapply parse_pages_Ok_bounds.
Qed.

Lemma parse_pages_length_witness :
  parse_pages (Some "1-3,2-5,4") 5 = Ok [1; 2; 3; 4; 5] ∧
  Z.of_nat (length [1; 2; 3; 4; 5]) ≤ Z.max 0 5.
Proof.
  assert (parse_pages (Some "1-3,2-5,4") 5 = Ok [1; 2; 3; 4; 5]) as Hrun
    by (vm_compute; reflexivity).
  split; [exact Hrun|].
  apply (parse_pages_length (Some "1-3,2-5,4") 5 _ Hrun).
Defined.

(** X6. [parse_pages] raises nothing but [ValueError]: the one of
    [int()] or one of its own two. *)
Theorem parse_pages_only_ValueError pages_arg num_pages e :
  parse_pages pages_arg num_pages = Err e → is_ValueError e = true.
Proof.
  unfold parse_pages. destruct (falsy pages_arg); [done|].
  intros [Hloop|(out & _ & ?)]%res_bind_Err; [|done].
  by eapply parse_loop_Err_ValueError.
Qed.

Lemma parse_pages_only_ValueError_witness :
  parse_pages (Some "1,x") 5 = Err (ValueError_int "x") ∧
  is_ValueError (ValueError_int "x") = true.
Proof.
  assert (parse_pages (Some "1,x") 5 = Err (ValueError_int "x")) as Hrun
    by (vm_compute; reflexivity).
  split; [exact Hrun|].
  apply (parse_pages_only_ValueError (Some "1,x") 5 _ Hrun).
Defined.

(** ** Printed pages read back *)

Section printed.

Lemma all_chars_impl (f g : ascii → bool) s :
  (∀ c, f c = true → g c = true) →
  Py.all_chars f s = true → Py.all_chars g s = true.
Proof.
  intros Hfg. induction s as [|c s IH]; simpl; [done|].
  intros [Hc Hs]%andb_true_iff. by rewrite (Hfg c Hc), IH.
Qed.

Lemma all_chars_no_contains f x s :
  f x = false → Py.all_chars f s = true → Py.contains x s = false.
Proof.
  intros Hx. induction s as [|c s IH]; simpl; [done|].
  intros [Hc Hs]%andb_true_iff.
  destruct (Ascii.eqb_spec c x) as [->|]; [congruence|by apply IH].
Qed.

Lemma split_no_sep sep s : Py.contains sep s = false → Py.split sep s = [s].
Proof.
  induction s as [|c s IH]; simpl; [done|].
  destruct (Ascii.eqb c sep); [done|]. by intros ->%IH.
Qed.

Lemma split1_append sep a b :
  Py.contains sep a = false →
  Py.split1 sep (a +:+ String sep b) = Some (a, b).
Proof.
  induction a as [|c a IH]; simpl.
  - intros _. change ("" +:+ String sep b) with (String sep b).
    simpl. by rewrite Ascii.eqb_refl.
  - change (String c a +:+ String sep b)
      with (String c (a +:+ String sep b)).
    simpl. destruct (Ascii.eqb c sep); [done|]. by intros ->%IH.
Qed.

Lemma lstrip_all_spaces ws :
  Py.all_chars Py.isspace ws = true → Py.lstrip ws = "".
Proof.
  induction ws as [|c ws IH]; [done|]. simpl.
  by intros [-> ->%IH]%andb_true_iff.
Qed.

Lemma all_chars_app f s t :
  Py.all_chars f (s +:+ t) = Py.all_chars f s && Py.all_chars f t.
Proof.
  induction s as [|c s IH]; [done|]. rewrite append_cons. simpl.
  by rewrite IH, andb_assoc.
Qed.

Lemma strip_no_space s :
  Py.all_chars (λ c, negb (Py.isspace c)) s = true → Py.strip s = s.
Proof.
  intros Hs. unfold Py.strip.
  assert (Py.lstrip s = s) as ->.
  { destruct s as [|c s]; [done|]. simpl in *.
    by destruct (Py.isspace c). }
  induction s as [|c s IH]; [done|]. simpl in *.
  apply andb_true_iff in Hs as [Hc Hs]. rewrite (IH Hs).
  destruct s; [|done]. by destruct (Py.isspace c).
Qed.

Lemma digit_not_space c : Py.isdigit c = true → negb (Py.isspace c) = true.
Proof. destruct c as [[] [] [] [] [] [] [] []]; done. Qed.

Lemma str_digits z : 0 ≤ z → Py.all_chars Py.isdigit (Py.str z) = true.
Proof.
  intros (d & _ & -> & _)%str_nonneg. apply string_of_uint_digits.
Qed.

Lemma sorted_list_to_set (l : list Z) :
  StronglySorted Z.lt l → Py.sorted (list_to_set l) = l.
Proof.
  intros Hl.
  assert (NoDup l) as Hnd.
  { induction Hl as [|x l Hl IH Hx]; constructor; [|done].
    rewrite Forall_forall in Hx. intros Hin%Hx. lia. }
  apply (Sorted_unique Z.le).
  - apply (Sorted_merge_sort Z.le).
  - apply StronglySorted_Sorted.
    induction Hl as [|x l Hl IH Hx]; constructor.
    + apply IH. by eapply NoDup_cons_1_2.
    + eapply Forall_impl; [done|]. intros y. simpl. lia.
  - unfold Py.sorted. rewrite merge_sort_Permutation.
    by apply elements_list_to_set.
Qed.

End printed.

(** X7. Page numbers as [str] prints them are read back: for
    [1 <= a <= b <= num_pages] the specification [str(a)] resolves to
    [[a]], and [str(a) + "-" + str(b)] to the pages from [a] to [b]. *)
Theorem parse_pages_printed num_pages a b :
  1 ≤ a → a ≤ b → b ≤ num_pages →
  parse_pages (Some (Py.str a)) num_pages = Ok [a] ∧
  parse_pages (Some (Py.str a +:+ "-" +:+ Py.str b)) num_pages
  = Ok (Py.range a (b + 1)).
Proof.
  intros Ha Hab Hb.
  pose proof (str_digits a ltac:(lia)) as Hda.
  pose proof (str_digits b ltac:(lia)) as Hdb.
  assert (∀ x, Py.isdigit x = false →
               Py.contains x (Py.str a) = false ∧
               Py.contains x (Py.str b) = false) as Hno.
  { intros x Hx. split; by eapply all_chars_no_contains. }
  destruct (Hno ","%char eq_refl) as [Hca Hcb].
  destruct (Hno "-"%char eq_refl) as [Hha Hhb].
  assert (Py.str a ≠ "") as Hne.
  { destruct (str_nonneg a ltac:(lia)) as (d & Hd & -> & _).
    by destruct (string_of_uint_cons d Hd) as (c & r & -> & _). }
  split.
  - rewrite parse_pages_loop by done.
    rewrite split_no_sep by done. simpl. unfold parse_part.
    rewrite strip_no_space
      by (eapply all_chars_impl; [apply digit_not_space|done]).
    rewrite (parse_token_accepts _ _ _ {[ a ]}).
    + simpl. f_equal. rewrite (left_id_L ∅ (∪)).
      rewrite <-(sorted_list_to_set [a]); [|repeat constructor].
      simpl. by rewrite (right_id_L ∅ (∪)).
    + apply accepts_number; [done|by apply int_str; lia|lia].
  - rewrite parse_pages_loop
      by (intros Heq; apply (f_equal String.length) in Heq;
          rewrite !length_append in Heq; simpl in Heq; lia).
    rewrite split_no_sep
      by (rewrite !contains_append, Hca, Hcb; done).
    simpl. unfold parse_part.
    rewrite strip_no_space.
    2:{ rewrite !all_chars_app.
        rewrite (all_chars_impl _ _ _ digit_not_space Hda).
        by rewrite (all_chars_impl _ _ _ digit_not_space Hdb). }
    rewrite (parse_token_accepts _ _ _ (list_to_set (Py.range a (b + 1)))).
    + simpl. f_equal. rewrite (left_id_L ∅ (∪)).
      apply sorted_list_to_set, range_ascending.
    + eapply accepts_range; [|by apply int_str; lia..|lia].
      rewrite append_char. by apply split1_append.
Qed.

Lemma parse_pages_printed_witness :
  parse_pages (Some (Py.str 3)) 12 = Ok [3] ∧
  parse_pages (Some (Py.str 3 +:+ "-" +:+ Py.str 11)) 12
  = Ok (Py.range 3 (11 + 1)).
Proof. apply (parse_pages_printed 12 3 11); lia. Defined.

(** X8. Only the empty string counts as no specification: a non-empty
    specification of white space alone is split into one token that is
    empty once stripped, and [parse_pages] raises the [ValueError] of
    [int("")]. *)
Theorem parse_pages_blank ws num_pages :
  ws ≠ "" →
  Py.all_chars Py.isspace ws = true →
  parse_pages (Some ws) num_pages = Err (ValueError_int "").
Proof.
  intros Hne Hws. rewrite parse_pages_loop by done.
  rewrite split_no_sep by (by apply (all_chars_no_contains Py.isspace)).
  simpl. unfold parse_part, Py.strip.
  by rewrite lstrip_all_spaces.
Qed.

Lemma parse_pages_blank_witness :
  parse_pages (Some "  ") 4 = Err (ValueError_int "").
Proof. by apply parse_pages_blank. Defined.

(** A page number as [str] prints it, outside the document. *)
Lemma parse_pages_page_refused num_pages p :
  0 ≤ p → ¬ (1 ≤ p ≤ num_pages) →
  parse_pages (Some (Py.str p)) num_pages
  = Err (ValueError ("Invalid page number: " +:+ Py.str p)).
Proof.
  intros Hp Hout.
  pose proof (str_digits p Hp) as Hd.
  assert (Py.str p ≠ "") as Hne.
  { destruct (str_nonneg p Hp) as (d & Hd' & -> & _).
    by destruct (string_of_uint_cons d Hd') as (c & r & -> & _). }
  rewrite parse_pages_loop by done.
  rewrite split_no_sep by (by apply (all_chars_no_contains Py.isdigit)).
  simpl. unfold parse_part.
  rewrite strip_no_space
    by (eapply all_chars_impl; [apply digit_not_space|done]).
  erewrite parse_token_out_of_range; [done|].
  apply page_out_of_range; [|by apply int_str|done].
  by apply (all_chars_no_contains Py.isdigit).
Qed.

(** ** Writing into the folder *)

Section folder.
Context `{Fitz}.

Lemma M_bind_run {A B} (m : M A) (k : A → M B) w a w1 :
  m w = (Ok a, w1) → (m ≫= k) w = k a w1.
Proof. unfold mbind, M_bind. by intros ->. Qed.

Lemma M_bind_raise {A B} (m : M A) (k : A → M B) w e w1 :
  m w = (Err e, w1) → (m ≫= k) w = (Err e, w1).
Proof. unfold mbind, M_bind. by intros ->. Qed.

Lemma rstrip_char_id x s :
  Path.endswith x s = false → Path.rstrip_char x s = s.
Proof.
  induction s as [|c s IH]; [done|]. destruct s as [|c' s].
  - simpl. by intros ->.
  - rewrite endswith_cons by done. intros Hs.
    change (Path.rstrip_char x (String c (String c' s)))
      with (match Path.rstrip_char x (String c' s) with
            | EmptyString =>
                if Ascii.eqb c x then EmptyString else String c EmptyString
            | r' => String c r'
            end).
    by rewrite (IH Hs).
Qed.

Lemma all_slashes_endswith s :
  s ≠ "" → Py.all_chars (Ascii.eqb "/") s = true →
  Path.endswith "/" s = true.
Proof.
  induction s as [|c s IH]; [done|]. intros _. simpl Py.all_chars.
  intros [Hc Hs]%andb_true_iff. destruct s as [|c' s].
  - simpl. by rewrite Ascii.eqb_sym.
  - rewrite endswith_cons by done. by apply IH.
Qed.

(** The directory of what is joined to a folder is the folder. *)
Lemma dirname_join folder name :
  folder ≠ "" → Path.endswith "/" folder = false →
  Py.contains "/" name = false →
  Path.dirname (Path.join folder name) = folder.
Proof.
  intros Hne Hslash Hname.
  assert (Path.startswith "/" name = false) as Hrel.
  { destruct (Path.startswith "/" name) eqn:Hst; [|done].
    apply startswith_contains in Hst. congruence. }
  destruct (join_relative folder name Hrel) as [[_ [?|?]]|[-> _]];
    [done|congruence|].
  unfold Path.dirname.
  rewrite append_char, split_last_append by done.
  destruct (Py.all_chars _ folder) eqn:Hall.
  - apply all_slashes_endswith in Hall; [congruence|done].
  - by apply rstrip_char_id.
Qed.

Lemma write_file_run p data w :
  fs w !! p ≠ Some Dir →
  Path.dirname p ≠ "" →
  fs w !! Path.dirname p = Some Dir →
  Os.write_file p data w
  = (Ok (), World (<[p := File data]> (fs w)) (open_docs w) (next_doc w)).
Proof.
  intros Hp Hdir Hparent. unfold Os.write_file.
  rewrite Hparent. apply String.eqb_neq in Hdir. rewrite Hdir.
  by destruct (fs w !! p) as [[]|].
Qed.

(** A write that goes through found a directory to write into. *)
Lemma write_file_Ok_parent p data w w' :
  Os.write_file p data w = (Ok (), w') →
  Path.dirname p = "" ∨ fs w !! Path.dirname p = Some Dir.
Proof.
  unfold Os.write_file.
  destruct (String.eqb_spec (Path.dirname p) ""); [by left|].
  repeat case_match; try done; by right.
Qed.

Lemma pix_save_run pix p w :
  fs w !! p ≠ Some Dir →
  Path.dirname p ≠ "" →
  fs w !! Path.dirname p = Some Dir →
  pix_save pix p w
  = (Ok (), World (<[p := File (png_bytes pix)]> (fs w)) (open_docs w)
              (next_doc w)).
Proof.
  intros Hp Hdir Hparent. unfold pix_save.
  rewrite Hparent. apply String.eqb_neq in Hdir. rewrite Hdir.
  by destruct (fs w !! p) as [[]|].
Qed.

(** A picture that is saved found a directory to go into. *)
Lemma pix_save_Ok_parent pix p w w' :
  pix_save pix p w = (Ok (), w') →
  Path.dirname p = "" ∨ fs w !! Path.dirname p = Some Dir.
Proof.
  unfold pix_save.
  destruct (String.eqb_spec (Path.dirname p) ""); [by left|].
  repeat case_match; try done; by right.
Qed.

Lemma out_path_not_folder single folder base p :
  out_path single folder base p ≠ folder.
Proof.
  rewrite out_path_join.
  apply join_longer; [apply png_name_relative|apply png_name_nonempty].
Qed.

Lemma out_path_dirname single folder base p :
  folder ≠ "" → Path.endswith "/" folder = false → 0 ≤ p →
  Path.dirname (out_path single folder base p) = folder.
Proof.
  intros. rewrite out_path_join.
  by apply dirname_join, png_name_no_slash.
Qed.

Lemma pdf_copy_path_dirname pdf_path :
  base_of pdf_path ≠ "" → Path.endswith "/" (base_of pdf_path) = false →
  Path.dirname (pdf_copy_path_of pdf_path) = base_of pdf_path.
Proof.
  intros. apply dirname_join; [done..|].
  by rewrite contains_append, basename_no_slash.
Qed.

(** The folder of a source with an extension. *)
Lemma base_of_extension pdf_path :
  (Path.splitext pdf_path).2 ≠ "" →
  base_of pdf_path ≠ "" ∧ Path.endswith "/" (base_of pdf_path) = false.
Proof.
  unfold base_of. destruct (Path.splitext pdf_path) as [base ext] eqn:Hs.
  simpl. intros Hext.
  by apply splitext_spec in Hs as [_ [?|(e & _ & ? & ?)]].
Qed.

(** The folder of a source without extension is the source. *)
Lemma base_of_no_extension pdf_path :
  (Path.splitext pdf_path).2 = "" → base_of pdf_path = pdf_path.
Proof.
  unfold base_of. destruct (Path.splitext pdf_path) as [base ext] eqn:Hs.
  simpl. intros ->. apply splitext_spec in Hs as [-> _].
  by rewrite append_nil_r.
Qed.

End folder.

(** ** Runs of the loop *)

Section loop_runs.
Context `{Fitz}.
Variables (d : doc) (zoom : Q) (grayscale single_output : bool).
Variables (folder_name base : string).
Hypothesis folder_nonempty : folder_name ≠ "".
Hypothesis folder_no_slash : Path.endswith "/" folder_name = false.

Abbreviation out' := (out_path single_output folder_name base).
Abbreviation loop' :=
  (render_pages d zoom grayscale single_output folder_name base).

Lemma render_pages_app pre rest saved w :
  loop' (pre ++ rest) saved w
  = match loop' pre saved w with
    | (Ok saved1, w1) => loop' rest saved1 w1
    | (Err e, w1) => (Err e, w1)
    end.
Proof.
  revert saved w. induction pre as [|p pre IH]; intros saved w; [done|].
  simpl. unfold mbind, M_bind, doc_getitem, page_get_pixmap, lift.
  destruct (load_page _ _) as [page|]; [|done]. simpl.
  destruct (get_pixmap _ _) as [pix|]; [|done]. simpl.
  destruct (pix_save _ _ _) as [[[]|e] w1]; [|done].
  apply IH.
Qed.

(** A turn whose page the library cannot render raises and writes
    nothing. *)
Lemma render_pages_turn_raises p rest saved w :
  page_png (loaded d) zoom grayscale p = None →
  loop' (p :: rest) saved w = (Err FitzError, w).
Proof.
  unfold page_png. intros Hpng. simpl.
  unfold mbind, M_bind, doc_getitem, page_get_pixmap, lift.
  destruct (load_page _ _) as [page|]; [|done]. simpl in *.
  by destruct (get_pixmap _ _) as [pix|].
Qed.

(** A turn that finds its folder and no directory in the way writes the
    picture and goes on. *)
Lemma render_pages_turn p rest saved w png :
  page_png (loaded d) zoom grayscale p = Some png →
  0 ≤ p →
  fs w !! folder_name = Some Dir →
  fs w !! out' p ≠ Some Dir →
  loop' (p :: rest) saved w
  = loop' rest (saved ++ [out' p])
      (World (<[out' p := File png]> (fs w)) (open_docs w) (next_doc w)).
Proof.
  unfold page_png. intros Hpng Hp Hfolder Hout. simpl.
  unfold mbind, M_bind, doc_getitem, page_get_pixmap, lift.
  destruct (load_page _ _) as [page|]; [|done]. simpl in *.
  destruct (get_pixmap _ _) as [pix|]; [|done]. simpl in *.
  injection Hpng as <-.
  rewrite pix_save_run; [done|done|..];
    by rewrite out_path_dirname.
Qed.

(** The loop goes through when every page can be rendered and no
    directory is in the place of a picture. *)
Lemma render_pages_runs page_list saved w :
  fs w !! folder_name = Some Dir →
  (∀ p, p ∈ page_list →
     0 ≤ p ∧ is_Some (page_png (loaded d) zoom grayscale p) ∧
     fs w !! out' p ≠ Some Dir) →
  ∃ w', loop' page_list saved w = (Ok (saved ++ (out' <$> page_list)), w') ∧
        fs w' !! folder_name = Some Dir.
Proof.
  revert saved w. induction page_list as [|p rest IH]; intros saved w Hf Hall.
  - exists w. by rewrite app_nil_r.
  - destruct (Hall p) as (Hp & [png Hpng] & Hout); [left|].
    rewrite (render_pages_turn _ _ _ _ png) by done.
    destruct (IH (saved ++ [out' p])
      (World (<[out' p := File png]> (fs w)) (open_docs w) (next_doc w)))
      as (w' & Hrun & Hf').
    + simpl. rewrite lookup_insert_ne; [done|]. apply out_path_not_folder.
    + intros q Hq. destruct (Hall q) as (? & ? & ?); [by right|].
      split_and!; [done..|]. simpl.
      destruct (decide (out' p = out' q)) as [->|?].
      * by rewrite lookup_insert_eq.
      * by rewrite lookup_insert_ne.
    + exists w'. by rewrite Hrun, <-app_assoc.
Qed.

End loop_runs.

(** ** Runs of [render] *)

Section render_runs.
Context `{Fitz}.
Variables (pdf_path : string) (dpi : Z) (pages : option string).
Variable grayscale : bool.

(** Up to the division [render] cannot raise once the pages are
    selected. *)
Lemma render_prefix w data d page_list :
  fs w !! pdf_path = Some (File data) →
  fitz_load data = Some d →
  parse_pages pages (page_count d) = Ok page_list →
  render pdf_path dpi pages grayscale w
  = (zoom ← lift (Py.truediv dpi 72);
     render_pages (Doc (next_doc w) d) zoom grayscale
       (length page_list =? 1)%nat (base_of pdf_path) (base_of pdf_path)
       page_list [] ≫= finish pdf_path (Doc (next_doc w) d))
      (loop_start pdf_path w).
Proof.
  intros Hsrc Hload Hpages. unfold render.
  rewrite (M_bind_run _ _ w true w)
    by (unfold Os.path_isfile; by rewrite Hsrc).
  cbn [negb].
  rewrite (M_bind_run _ _ w (Doc (next_doc w) d) (opened w))
    by (unfold fitz_open; by rewrite Hsrc, Hload).
  cbn [loaded]. rewrite Hpages.
  rewrite (M_bind_run _ _ (opened w) page_list (opened w)) by done.
  rewrite (M_bind_run _ _ (opened w)
             match fs w !! base_of pdf_path with
             | Some _ => true | None => false end (opened w)) by done.
  rewrite (M_bind_run _ _ (opened w) () (loop_start pdf_path w)); [done|].
  unfold loop_start, make_folder, Os.makedirs, mret, M_ret. simpl.
  destruct (fs w !! base_of pdf_path) eqn:Hbase; simpl; by rewrite ?Hbase.
Qed.

(** With a [dpi] that fits a float, the loop is reached. *)
Lemma render_run w data d page_list :
  fs w !! pdf_path = Some (File data) →
  fitz_load data = Some d →
  parse_pages pages (page_count d) = Ok page_list →
  Py.float_fits dpi = true →
  render pdf_path dpi pages grayscale w
  = (render_pages (Doc (next_doc w) d) (zoom_of dpi) grayscale
       (length page_list =? 1)%nat (base_of pdf_path) (base_of pdf_path)
       page_list [] ≫= finish pdf_path (Doc (next_doc w) d))
      (loop_start pdf_path w).
Proof.
  intros Hsrc Hload Hpages Hfits.
  rewrite (render_prefix _ _ _ _ Hsrc Hload Hpages).
  rewrite (M_bind_run _ _ _ (zoom_of dpi) (loop_start pdf_path w)); [done|].
  unfold lift, Py.truediv. by rewrite Hfits.
Qed.

(** After the loop [render] returns when the copy is there already or can
    be written. *)
Lemma finish_run d saved w data :
  fs w !! pdf_path = Some (File data) →
  (Path.splitext pdf_path).2 ≠ "" →
  fs w !! base_of pdf_path = Some Dir →
  finish pdf_path d saved w
  = (Ok saved, World (archive pdf_path (fs w)) (open_docs w ∖ {[ handle d ]})
                 (next_doc w)).
Proof.
  intros Hsrc [Hne Hslash]%base_of_extension Hbase.
  unfold finish, Os.path_exists, archive, Os.read_file, doc_close.
  unfold mbind, M_bind, mret, M_ret. rewrite Hsrc.
  destruct (fs w !! pdf_copy_path_of pdf_path) eqn:Hcopy; simpl; [done|].
  rewrite Hsrc, write_file_run; [done|by rewrite Hcopy|..];
    by rewrite pdf_copy_path_dirname.
Qed.

End render_runs.

Section render_more.
Context `{Fitz}.
Variables (pdf_path : string) (dpi : Z) (pages : option string).
Variable grayscale : bool.

Lemma not_elem_of_out_paths single folder base (page_list : list Z) q :
  (∀ p, q ≠ out_path single folder base p) →
  q ∉ out_path single folder base <$> page_list.
Proof. intros Hq (p & -> & _)%list_elem_of_fmap. by eapply Hq. Qed.

Lemma lookup_make_folder_base base (m : gmap string node) :
  make_folder base m !! base
  = match m !! base with Some n => Some n | None => Some Dir end.
Proof.
  unfold make_folder. destruct (m !! base) eqn:Hbase; [done|].
  by rewrite lookup_insert_eq.
Qed.

(** X9. When [pdf_path] is not a regular file (nothing is there, or a
    directory), [render] raises [FileNotFoundError] with the message
    [File not found: ] followed by the path as given, before anything is
    opened or written: the world is as it was. *)
Theorem render_missing_source w :
  (∀ data, fs w !! pdf_path ≠ Some (File data)) →
  render pdf_path dpi pages grayscale w
  = (Err (FileNotFoundError ("File not found: " +:+ pdf_path)), w).
Proof.
  intros Hsrc. unfold render, Os.path_isfile, mbind, M_bind.
  by destruct (fs w !! pdf_path) as [[data|]|] eqn:Hp;
    [destruct (Hsrc data)|..].
Qed.

(** A page specification that is refused: nothing is written and the
    document stays open. *)
Lemma render_pages_refused w data d e :
  fs w !! pdf_path = Some (File data) →
  fitz_load data = Some d →
  parse_pages pages (page_count d) = Err e →
  render pdf_path dpi pages grayscale w = (Err e, opened w).
Proof.
  intros Hsrc Hload Hpages. unfold render.
  rewrite (M_bind_run _ _ w true w)
    by (unfold Os.path_isfile; by rewrite Hsrc).
  cbn [negb].
  rewrite (M_bind_run _ _ w (Doc (next_doc w) d) (opened w))
    by (unfold fitz_open; by rewrite Hsrc, Hload).
  cbn [loaded]. rewrite Hpages. by apply M_bind_raise.
Qed.

(** X10. [render] returns, with one path per selected page in the order
    of the page list, whenever the source is a file the library reads,
    the page specification is resolved, [dpi] is an int that fits a
    float (below [2**1024 - 2**970] in absolute value), the library
    renders every selected page, the source name has an extension, no
    file is in the place of the folder and no directory in the place of
    a picture. *)
Theorem render_succeeds w data d page_list :
  fs w !! pdf_path = Some (File data) →
  fitz_load data = Some d →
  parse_pages pages (page_count d) = Ok page_list →
  Py.float_fits dpi = true →
  (∀ p, p ∈ page_list →
     is_Some (page_png d (zoom_of dpi) grayscale p)) →
  (Path.splitext pdf_path).2 ≠ "" →
  (∀ x, fs w !! base_of pdf_path ≠ Some (File x)) →
  (∀ p, p ∈ page_list →
     fs w !! out_path (length page_list =? 1)%nat (base_of pdf_path)
               (base_of pdf_path) p ≠ Some Dir) →
  ∃ w', render pdf_path dpi pages grayscale w
        = (Ok (out_path (length page_list =? 1)%nat (base_of pdf_path)
                 (base_of pdf_path) <$> page_list), w').
Proof.
  intros Hsrc Hload Hpages Hfits Hpng Hext Hbase Hout.
  pose proof (base_of_extension _ Hext) as [Hne Hslash].
  rewrite (render_run _ _ _ _ _ _ _ _ Hsrc Hload Hpages Hfits).
  assert (fs (loop_start pdf_path w) !! base_of pdf_path = Some Dir)
    as Hfolder.
  { simpl. rewrite lookup_make_folder_base.
    destruct (fs w !! base_of pdf_path) as [[x|]|] eqn:Hb; [|done..].
    by destruct (Hbase x). }
  edestruct (render_pages_runs (Doc (next_doc w) d) (zoom_of dpi) grayscale
               (length page_list =? 1)%nat _ (base_of pdf_path) Hne Hslash
               page_list [] _ Hfolder) as (w2 & Hloop & Hfolder2).
  { intros p Hp. split_and!.
    - eapply parse_pages_Ok_bounds in Hpages; [|done]. lia.
    - by apply Hpng.
    - simpl. rewrite lookup_make_folder_ne by apply out_path_not_folder.
      by apply Hout. }
  rewrite (M_bind_run _ _ _ _ _ Hloop).
  apply render_pages_frame in Hloop as (_ & _ & Hframe).
  erewrite finish_run; [by eexists|..|done|done].
  rewrite Hframe.
  - simpl. by apply lookup_make_folder_Some.
  - apply not_elem_of_out_paths. intros p Hp.
    by eapply out_path_not_source.
Qed.

(** X18. A [dpi] too large for a float stops [render] at the division
    [dpi / 72.0]: for a source the library reads and a page
    specification that is resolved, an int [dpi] of absolute value
    [2**1024 - 2**970] or more makes [render] raise [OverflowError] once
    the folder is made, before any page is rendered: no picture and no
    copy is written, and the document stays open. *)
Theorem render_dpi_overflow w data d page_list :
  fs w !! pdf_path = Some (File data) →
  fitz_load data = Some d →
  parse_pages pages (page_count d) = Ok page_list →
  2 ^ 1024 - 2 ^ 970 ≤ Z.abs dpi →
  render pdf_path dpi pages grayscale w
  = (Err OverflowError,
     World (make_folder (base_of pdf_path) (fs w))
       ({[ next_doc w ]} ∪ open_docs w) (S (next_doc w))).
Proof.
  intros Hsrc Hload Hpages Hdpi.
  rewrite (render_prefix _ _ _ _ _ _ _ _ Hsrc Hload Hpages).
  apply M_bind_raise.
  unfold lift, Py.truediv, Py.float_fits, Py.float_limit.
  by rewrite (proj2 (Z.ltb_ge _ _) Hdpi).
Qed.

End render_more.

Section render_again.
Context `{Fitz}.
Variables (pdf_path : string) (dpi : Z) (pages : option string).
Variable grayscale : bool.

Lemma out_path_inj_on folder base (page_list : list Z) p p' :
  (∀ q, q ∈ page_list → 0 ≤ q) →
  p ∈ page_list → p' ∈ page_list →
  out_path (length page_list =? 1)%nat folder base p'
  = out_path (length page_list =? 1)%nat folder base p →
  p' = p.
Proof.
  intros Hpos Hp Hp'. destruct (length page_list =? 1)%nat eqn:Hlen.
  - apply Nat.eqb_eq in Hlen.
    destruct page_list as [|p0 [|]]; simplify_eq/=.
    apply list_elem_of_singleton in Hp as ->.
    by apply list_elem_of_singleton in Hp' as ->.
  - apply out_path_inj; by apply Hpos.
Qed.

Lemma finish_there d saved w n :
  fs w !! pdf_copy_path_of pdf_path = Some n →
  finish pdf_path d saved w
  = (Ok saved, World (fs w) (open_docs w ∖ {[ handle d ]}) (next_doc w)).
Proof.
  intros Hcopy. unfold finish, Os.path_exists, doc_close.
  unfold mbind, M_bind, mret, M_ret. by rewrite Hcopy.
Qed.

(** A turn that goes through found the directory of its picture. *)
Lemma render_pages_cons_parent d zoom single folder base p rest saved w r w' :
  render_pages d zoom grayscale single folder base (p :: rest) saved w
  = (Ok r, w') →
  Path.dirname (out_path single folder base p) = "" ∨
  fs w !! Path.dirname (out_path single folder base p) = Some Dir.
Proof.
  simpl. intros (page & w1 & Hpage & Hrest)%M_bind_Ok.
  apply M_bind_Ok in Hrest as (pix & w2 & Hpix & Hrest).
  apply M_bind_Ok in Hrest as ([] & w3 & Hsave & Hrest).
  apply lift_inv in Hpage as [Hpage ->].
  apply lift_inv in Hpix as [Hpix ->].
  by eapply pix_save_Ok_parent.
Qed.

(** A turn that does not find the directory of its picture raises and
    writes nothing. *)
Lemma render_pages_cons_no_parent d zoom single folder base p rest saved
    w r w' :
  render_pages d zoom grayscale single folder base (p :: rest) saved w
  = (r, w') →
  Path.dirname (out_path single folder base p) ≠ "" →
  fs w !! Path.dirname (out_path single folder base p) ≠ Some Dir →
  (∃ e, r = Err e) ∧ w' = w.
Proof.
  simpl. intros Hrun Hne Hparent.
  apply M_bind_inv in Hrun as [(e & -> & Hpage)|(page & w1 & Hpage & Hrun)];
    apply lift_inv in Hpage as [Hpage ->]; [eauto|].
  apply M_bind_inv in Hrun as [(e & -> & Hpix)|(pix & w1 & Hpix & Hrun)];
    apply lift_inv in Hpix as [Hpix ->]; [eauto|].
  apply M_bind_inv in Hrun as [(e & -> & Hsave)|([] & w1 & Hsave & Hrun)].
  - apply pix_save_Err in Hsave as ->. eauto.
  - apply pix_save_Ok_parent in Hsave as [?|?]; done.
Qed.

(** The folder after a run that returns. *)
Lemma render_Ok_folder w saved w' :
  render pdf_path dpi pages grayscale w = (Ok saved, w') →
  fs w' !! base_of pdf_path
  = match fs w !! base_of pdf_path with
    | Some n => Some n
    | None => Some Dir
    end.
Proof.
  intros Hrun%render_exits.
  inversion Hrun as [| | | | |
                     |data d pl saved' w2 Hsrc Hload Hpages Hfits Hloop];
    subst.
  apply render_pages_frame in Hloop as (_ & _ & Hframe).
  cbn [fs]. rewrite lookup_archive_ne, Hframe.
  - cbn [fs loop_start]. apply lookup_make_folder_base.
  - apply not_elem_of_out_paths. intros p Hp.
    by eapply out_path_not_folder.
  - intros Heq. by eapply pdf_copy_path_not_folder.
Qed.

End render_again.

Section second_run.
Context `{Fitz}.
Variables (pdf_path : string) (dpi : Z) (pages : option string).
Variable grayscale : bool.

Lemma render_pages_parent d zoom single folder base page_list saved w r w' :
  page_list ≠ [] →
  render_pages d zoom grayscale single folder base page_list saved w
  = (Ok r, w') →
  ∃ p, p ∈ page_list ∧
    (Path.dirname (out_path single folder base p) = "" ∨
     fs w !! Path.dirname (out_path single folder base p) = Some Dir).
Proof.
  destruct page_list as [|p rest]; [done|]. intros _ Hrun.
  exists p. split; [left|]. by eapply render_pages_cons_parent.
Qed.

(** X11. A second run is harmless: when [render] has returned for a
    source with an extension, the same call in the world it left returns
    the same list and leaves every file as it is. *)
Theorem render_twice w saved w' :
  (Path.splitext pdf_path).2 ≠ "" →
  render pdf_path dpi pages grayscale w = (Ok saved, w') →
  ∃ w'', render pdf_path dpi pages grayscale w' = (Ok saved, w'') ∧
         fs w'' = fs w'.
Proof.
  intros Hext Hrun.
  pose proof (base_of_extension _ Hext) as [Hne Hslash].
  pose proof (render_Ok_folder _ _ _ _ _ _ _ Hrun) as Hfolder.
  destruct (render_Ok _ _ _ _ _ _ _ Hrun) as (data & d & pl & Hret).
  destruct Hret as [Hsrc Hload Hpages -> Hkept Hpngs Hcopy Hframe _ _].
  pose proof (parse_pages_Ok_bounds _ _ _ Hpages) as Hbounds.
  assert (∀ q, q ∈ pl → 0 ≤ q) as Hpos.
  { intros q Hq. apply Hbounds in Hq. lia. }
  assert (fs (loop_start pdf_path w') = fs w') as Hstart.
  { cbn [fs loop_start]. unfold make_folder. rewrite Hfolder.
    by destruct (fs w !! base_of pdf_path). }
  assert (∃ n, fs w' !! pdf_copy_path_of pdf_path = Some n) as [n Hthere].
  { rewrite Hcopy. destruct (fs w !! pdf_copy_path_of pdf_path); eauto. }
  pose proof (render_Ok_fits _ _ _ _ _ _ _ Hrun) as Hfits.
  rewrite (render_run _ _ _ _ _ _ _ _ Hsrc Hload Hpages Hfits) in Hrun.
  apply M_bind_Ok in Hrun as (saved1 & w1 & Hloop1 & _).
  rewrite (render_run _ _ _ _ _ _ _ _ Hkept Hload Hpages Hfits).
  destruct (decide (pl = [])) as [->|Hpl].
  { simpl. erewrite M_bind_run by done.
    erewrite finish_there by (by rewrite Hstart).
    eexists. split; [done|]. by rewrite <-Hstart. }
  apply render_pages_parent in Hloop1 as (p0 & Hp0 & Hparent); [|done].
  rewrite out_path_dirname in Hparent by auto.
  destruct Hparent as [?|Hdir]; [done|].
  cbn [fs loop_start] in Hdir. rewrite lookup_make_folder_base in Hdir.
  rewrite Hdir in Hfolder.
  edestruct (render_pages_runs (Doc (next_doc w') d) (zoom_of dpi) grayscale
               (length pl =? 1)%nat _ (base_of pdf_path) Hne Hslash
               pl [] (loop_start pdf_path w')) as (w2 & Hloop & _).
  { by rewrite Hstart. }
  { intros p Hp. destruct (Hpngs p Hp) as (png & Hpng & Hfile).
    split_and!; [by apply Hpos|cbn [loaded]; by rewrite Hpng|].
    rewrite Hstart, Hfile. done. }
  rewrite (M_bind_run _ _ _ _ _ Hloop).
  apply render_pages_Ok in Hloop as (_ & _ & _ & Hframe2 & _ & Hpngs2).
  erewrite finish_there.
  2:{ rewrite Hframe2, Hstart; [done|].
      apply not_elem_of_out_paths. intros p Heq.
      by eapply out_path_not_copy. }
  eexists. split; [done|]. cbn [fs]. apply map_eq. intros q.
  destruct (decide (q ∈ out_path (length pl =? 1)%nat (base_of pdf_path)
                       (base_of pdf_path) <$> pl)) as [Hq|Hq].
  - apply list_elem_of_fmap in Hq as (p & -> & Hp).
    destruct (Hpngs p Hp) as (png & Hpng & ->).
    destruct (Hpngs2 p Hp) as (png2 & Hpng2 & ->);
      [|cbn [loaded] in Hpng2; congruence].
    intros p' Hp' Heq. by eapply out_path_inj_on.
  - by rewrite Hframe2, Hstart.
Qed.

End second_run.

Section render_raises.
Context `{Fitz}.
Variables (pdf_path : string) (dpi : Z) (pages : option string).
Variable grayscale : bool.

(** X12. Nothing is rolled back.  Let the source be a file the library
    reads, whose name has an extension, let the page specification be
    resolved and [dpi] fit a float, and let no file be in the place of
    the folder and no directory in the place of a picture of the pages
    selected before page [p].  When the library renders those earlier
    pages and cannot render the selected page [p], [render] raises the
    library's exception with the folder there, the picture of each
    earlier page on disk, the copy path of the source as it was and the
    document still open. *)
Theorem render_page_fails w data d pre p post :
  fs w !! pdf_path = Some (File data) →
  fitz_load data = Some d →
  parse_pages pages (page_count d) = Ok (pre ++ p :: post) →
  Py.float_fits dpi = true →
  (∀ q, q ∈ pre → is_Some (page_png d (zoom_of dpi) grayscale q)) →
  page_png d (zoom_of dpi) grayscale p = None →
  (Path.splitext pdf_path).2 ≠ "" →
  (∀ x, fs w !! base_of pdf_path ≠ Some (File x)) →
  (∀ q, q ∈ pre →
     fs w !! out_path false (base_of pdf_path) (base_of pdf_path) q
     ≠ Some Dir) →
  ∃ w', render pdf_path dpi pages grayscale w = (Err FitzError, w') ∧
    fs w' !! base_of pdf_path = Some Dir ∧
    (∀ q, q ∈ pre →
       ∃ png, page_png d (zoom_of dpi) grayscale q = Some png ∧
         fs w' !! out_path false (base_of pdf_path) (base_of pdf_path) q
         = Some (File png)) ∧
    fs w' !! pdf_copy_path_of pdf_path = fs w !! pdf_copy_path_of pdf_path ∧
    next_doc w ∈ open_docs w'.
Proof.
  intros Hsrc Hload Hpages Hfits Hpng Hfail Hext Hbase Hout.
  pose proof (base_of_extension _ Hext) as [Hne Hslash].
  pose proof (parse_pages_Ok_bounds _ _ _ Hpages) as Hbounds.
  assert (∀ q, q ∈ pre ++ p :: post → 0 ≤ q) as Hpos.
  { intros q Hq. apply Hbounds in Hq. lia. }
  destruct (render pdf_path dpi pages grayscale w) as [r w'] eqn:Hrun.
  pose proof Hrun as Hrun'.
  rewrite (render_run _ _ _ _ _ _ _ _ Hsrc Hload Hpages Hfits) in Hrun'.
  destruct (decide (pre = [])) as [->|Hpre].
  { simpl app in *.
    erewrite M_bind_raise in Hrun' by (by apply render_pages_turn_raises).
    injection Hrun' as <- <-. exists (loop_start pdf_path w).
    split_and!; [done| |by intros q ?%elem_of_nil|..].
    - cbn [fs loop_start]. rewrite lookup_make_folder_base.
      destruct (fs w !! base_of pdf_path) as [[x|]|] eqn:Hb; [|done..].
      by destruct (Hbase x).
    - by eapply render_Err_copy.
    - by eapply render_Err_open. }
  assert ((length (pre ++ p :: post) =? 1)%nat = false) as Hlen.
  { apply Nat.eqb_neq. rewrite length_app. simpl.
    destruct pre; [done|]. simpl. lia. }
  rewrite Hlen in Hrun'.
  assert (fs (loop_start pdf_path w) !! base_of pdf_path = Some Dir)
    as Hfolder.
  { cbn [fs loop_start]. rewrite lookup_make_folder_base.
    destruct (fs w !! base_of pdf_path) as [[x|]|] eqn:Hb; [|done..].
    by destruct (Hbase x). }
  edestruct (render_pages_runs (Doc (next_doc w) d) (zoom_of dpi) grayscale
               false _ (base_of pdf_path) Hne Hslash
               pre [] _ Hfolder) as (w1 & Hloop & Hfolder1).
  { intros q Hq. split_and!.
    - apply Hpos. apply elem_of_app. by left.
    - by apply Hpng.
    - cbn [fs loop_start].
      rewrite lookup_make_folder_ne by apply out_path_not_folder.
      by apply Hout. }
  erewrite M_bind_raise in Hrun'.
  2:{ rewrite render_pages_app, Hloop.
      by apply render_pages_turn_raises. }
  injection Hrun' as <- <-. exists w1.
  split_and!; [done|done| |by eapply render_Err_copy
              |by eapply render_Err_open].
  apply render_pages_Ok in Hloop as (_ & _ & _ & _ & _ & Hpngs).
  intros q Hq. apply Hpngs; [done|].
  intros q' Hq' Heq. apply out_path_inj in Heq; [done|..];
    apply Hpos, elem_of_app; by left.
Qed.

(** A run whose copy had to be written found the directory for it. *)
Lemma finish_Ok_parent d saved w r w' :
  finish pdf_path d saved w = (Ok r, w') →
  fs w !! pdf_copy_path_of pdf_path = None →
  Path.dirname (pdf_copy_path_of pdf_path) = "" ∨
  fs w !! Path.dirname (pdf_copy_path_of pdf_path) = Some Dir.
Proof.
  unfold finish. intros (there & w1 & [= <- <-] & Hrun)%M_bind_Ok Hcopy.
  rewrite Hcopy in Hrun. cbn [negb] in Hrun.
  apply M_bind_Ok in Hrun as ([] & w1 & Hwrite & _).
  apply M_bind_Ok in Hwrite as (data & w2 & Hread & Hwrite).
  unfold Os.read_file in Hread.
  destruct (fs w !! pdf_path) as [[]|]; simplify_eq.
  by eapply write_file_Ok_parent.
Qed.

(** X13. A source whose name has no extension cannot be exported: the
    folder would be the source file itself, so with no copy path in the
    way [render] raises, and no file has changed. *)
Theorem render_no_extension w data :
  (Path.splitext pdf_path).2 = "" →
  pdf_path ≠ "" →
  Path.endswith "/" pdf_path = false →
  fs w !! pdf_path = Some (File data) →
  fs w !! pdf_copy_path_of pdf_path = None →
  ∃ e w', render pdf_path dpi pages grayscale w = (Err e, w') ∧
          fs w' = fs w.
Proof.
  intros Hext Hne Hslash Hsrc Hcopy.
  pose proof (base_of_no_extension _ Hext) as Hbase.
  assert (fs (loop_start pdf_path w) = fs w) as Hstart.
  { cbn [fs loop_start]. unfold make_folder. by rewrite Hbase, Hsrc. }
  assert (∀ single p, 0 ≤ p →
            Path.dirname (out_path single (base_of pdf_path)
                            (base_of pdf_path) p) = pdf_path) as Hdir.
  { intros single p Hp. rewrite out_path_dirname; by rewrite ?Hbase. }
  assert (∀ d pl r w2,
    parse_pages pages (page_count (loaded d)) = Ok pl →
    render_pages d (zoom_of dpi) grayscale (length pl =? 1)%nat
      (base_of pdf_path) (base_of pdf_path) pl [] (loop_start pdf_path w)
    = (r, w2) →
    w2 = loop_start pdf_path w ∧ (pl = [] ∨ ∃ e, r = Err e)) as Hturn.
  { intros d pl r w2 Hpages Hloop.
    pose proof (parse_pages_Ok_bounds _ _ _ Hpages) as Hbounds.
    destruct (decide (pl = [])) as [->|Hpl].
    { injection Hloop as <- <-. auto. }
    destruct pl as [|p rest]; [done|].
    eapply render_pages_cons_no_parent in Hloop as [? ->]; [by auto|..];
      rewrite Hdir by (by specialize (Hbounds p ltac:(left)); lia);
      [done|by rewrite Hstart, Hsrc]. }
  destruct (render pdf_path dpi pages grayscale w) as [r w'] eqn:Hrun.
  pose proof (render_exits _ _ _ _ _ _ _ Hrun) as Hexit.
  inversion Hexit as [Hnot|data' ? Hnone|data' d' e' ? ? Hpages
                     |data' d' pl ? ? Hpages Hfits
                     |data' d' pl e' w2 ? ? Hpages Hfits Hloop
                     |data' d' pl saved e' w2 ? ? Hpages Hfits Hloop
                     |data' d' pl saved w2 Hsrc' Hload Hpages Hfits Hloop];
    subst.
  - by eauto.
  - by eauto.
  - by eauto.
  - by eauto.
  - apply (Hturn (Doc _ _)) in Hloop as [-> _]; by eauto.
  - apply (Hturn (Doc _ _)) in Hloop as [-> _]; by eauto.
  - exfalso.
    rewrite (render_run _ _ _ _ _ _ _ _ Hsrc' Hload Hpages Hfits) in Hrun.
    apply M_bind_Ok in Hrun as (saved1 & w1 & Hloop1 & Hfinish).
    apply (Hturn (Doc _ _)) in Hloop1 as [-> _]; [|done].
    apply finish_Ok_parent in Hfinish; [|by rewrite Hstart].
    rewrite pdf_copy_path_dirname, Hstart, Hbase, Hsrc in Hfinish
      by (by rewrite Hbase).
    by destruct Hfinish.
Qed.

(** X14. The paths returned do not depend on [dpi] nor on [grayscale]:
    two returning runs on the same source with the same page
    specification return the same list. *)
Theorem render_names_fixed dpi2 grayscale2 w saved w' saved2 w2 :
  render pdf_path dpi pages grayscale w = (Ok saved, w') →
  render pdf_path dpi2 pages grayscale2 w = (Ok saved2, w2) →
  saved2 = saved.
Proof.
  intros (data & d & pl & Hret)%render_Ok (data2 & d2 & pl2 & Hret2)%render_Ok.
  destruct Hret as [Hsrc Hload Hpages -> _ _ _ _ _ _].
  destruct Hret2 as [Hsrc2 Hload2 Hpages2 -> _ _ _ _ _ _].
  rewrite Hsrc in Hsrc2. injection Hsrc2 as <-.
  rewrite Hload in Hload2. injection Hload2 as <-.
  rewrite Hpages in Hpages2. by injection Hpages2 as <-.
Qed.

(** X15. Whether it returns or raises, [render] changes nothing outside
    its folder: a path whose content differs after the run is the folder
    or the folder joined with a name without slash. *)
Theorem render_writes_in_folder w r w' q :
  render pdf_path dpi pages grayscale w = (r, w') →
  fs w' !! q ≠ fs w !! q →
  q = base_of pdf_path ∨
  ∃ name, Py.contains "/" name = false ∧
          q = Path.join (base_of pdf_path) name.
Proof.
  intros Hrun Hq.
  destruct (decide (q = base_of pdf_path)) as [|Hbase]; [by left|right].
  destruct (decide (q = pdf_copy_path_of pdf_path)) as [->|Hcopy].
  { eexists. split; [|done].
    by rewrite contains_append, basename_no_slash. }
  assert (∀ d pl r w2,
    parse_pages pages (page_count (loaded d)) = Ok pl →
    render_pages d (zoom_of dpi) grayscale (length pl =? 1)%nat
      (base_of pdf_path) (base_of pdf_path) pl [] (loop_start pdf_path w)
    = (r, w2) →
    fs w2 !! q ≠ fs w !! q →
    ∃ name, Py.contains "/" name = false ∧
            q = Path.join (base_of pdf_path) name) as Hloop.
  { intros d pl r2 w2 Hpages Hloop Hne.
    pose proof (parse_pages_Ok_bounds _ _ _ Hpages) as Hbounds.
    apply render_pages_frame in Hloop as (_ & _ & Hframe).
    destruct (decide (q ∈ out_path (length pl =? 1)%nat (base_of pdf_path)
                         (base_of pdf_path) <$> pl)) as [Hin|Hout].
    - apply list_elem_of_fmap in Hin as (p & -> & Hp).
      rewrite out_path_join. eexists. split; [|done].
      apply png_name_no_slash. apply Hbounds in Hp. lia.
    - rewrite Hframe in Hne by done. cbn [fs loop_start] in Hne.
      by rewrite lookup_make_folder_ne in Hne. }
  apply render_exits in Hrun.
  inversion Hrun as [Hnot|data' ? Hnone|data' d' e' ? ? Hpages
                    |data' d' pl ? ? Hpages Hfits
                    |data' d' pl e' w2 ? ? Hpages Hfits Hrp
                    |data' d' pl saved e' w2 ? ? Hpages Hfits Hrp
                    |data' d' pl saved w2 Hsrc' Hload Hpages Hfits Hrp];
    subst; try done.
  - cbn [fs loop_start] in Hq. by rewrite lookup_make_folder_ne in Hq.
  - by eapply (Hloop (Doc _ _)).
  - by eapply (Hloop (Doc _ _)).
  - cbn [fs] in Hq. rewrite lookup_archive_ne in Hq by done.
    by eapply (Hloop (Doc _ _)).
Qed.

End render_raises.

(** ** What [main] shows *)

Section main_properties.
Context `{Fitz}.
Variable describe : exn → string.

(** X16. When [main] ends with status 0 it has printed nothing on
    stderr, has closed the document, and every path it has printed on
    stdout (after [Saved: ] for one output, else one per line after the
    line [Saved:]) is a file on disk. *)
Theorem main_reports_files a w pr w' :
  main describe a w = (pr, w') →
  status pr = 0 →
  stderr pr = [] ∧ (next_doc w ∉ open_docs w') ∧
  ∃ outputs,
    stdout pr = match outputs with
                | [p] => ["Saved: " +:+ p]
                | _ => "Saved:" :: ((λ p, "   " +:+ p) <$> outputs)
                end ∧
    ∀ p, p ∈ outputs → ∃ png, fs w' !! p = Some (File png).
Proof.
  unfold main.
  destruct (render _ _ _ _ w) as [[outputs|e] w1] eqn:Hrun;
    intros [= <- <-]; [intros _|done].
  split_and!; [done|by eapply render_Ok_closed|].
  exists outputs. split; [done|].
  apply render_Ok in Hrun as (data & d & pl & Hret).
  destruct Hret as [_ _ _ -> _ Hpngs _ _ _ _].
  intros ? (p & -> & Hp)%list_elem_of_fmap.
  destruct (Hpngs p Hp) as (png & _ & Hfile). eauto.
Qed.

(** X17. [main] with [--pages] set to a single number, as [str] prints
    it, that is 0 or beyond the last page of a readable source prints
    nothing on stdout and the one line [Error: Invalid page number: ]
    followed by the number on stderr, ends with status 1, writes nothing
    and leaves the document open. *)
Theorem main_page_beyond a w data d p :
  fs w !! args_pdf a = Some (File data) →
  fitz_load data = Some d →
  args_pages a = Some (Py.str p) →
  0 ≤ p → ¬ (1 ≤ p ≤ page_count d) →
  main describe a w
  = (Shown [] ["Error: Invalid page number: " +:+ Py.str p] 1, opened w).
Proof.
  intros Hsrc Hload Hpages Hp Hout. unfold main.
  rewrite (render_pages_refused _ _ _ _ w data d
             (ValueError ("Invalid page number: " +:+ Py.str p)));
    [done..|].
  rewrite Hpages. by apply parse_pages_page_refused.
Qed.

End main_properties.

(** ** More runs on concrete documents *)

Lemma render_missing_source_witness :
  render "docs/draft.pdf" 300 None false Toy.report_world
  = (Err (FileNotFoundError ("File not found: " +:+ "docs/draft.pdf")),
     Toy.report_world).
Proof. apply render_missing_source. intros data. vm_compute. done. Defined.

Lemma render_succeeds_witness :
  ∃ w', render "docs/report.pdf" 300 (Some "1,3") true Toy.report_world
        = (Ok (out_path (length [1; 3]%Z =? 1)%nat (base_of "docs/report.pdf")
                 (base_of "docs/report.pdf") <$> [1; 3]), w').
Proof.
  apply (render_succeeds (H:=Toy.fitz) _ _ _ _ _ (Toy.pdf "Pabc")
           (list_byte_of_string "abc")).
  - vm_compute. reflexivity.
  - vm_compute. reflexivity.
  - vm_compute. reflexivity.
  - vm_compute. reflexivity.
  - intros p [->|[->|[]%elem_of_nil]%elem_of_cons]%elem_of_cons;
      vm_compute; eauto.
  - vm_compute. done.
  - intros x. vm_compute. done.
  - intros p [->|[->|[]%elem_of_nil]%elem_of_cons]%elem_of_cons;
      vm_compute; done.
Defined.

Lemma render_dpi_overflow_witness :
  render "empty.pdf" (10 ^ 400) None false Toy.empty_world
  = (Err OverflowError,
     World (make_folder (base_of "empty.pdf") (fs Toy.empty_world))
       ({[ next_doc Toy.empty_world ]} ∪ open_docs Toy.empty_world)
       (S (next_doc Toy.empty_world))).
Proof.
  apply (render_dpi_overflow (H:=Toy.fitz) _ _ _ _ _ (Toy.pdf "P") [] []).
  - vm_compute. reflexivity.
  - vm_compute. reflexivity.
  - vm_compute. reflexivity.
  - vm_compute. discriminate.
Defined.

Lemma render_twice_witness :
  let run := render "docs/report.pdf" 300 None false Toy.report_world in
  ∃ w'', render "docs/report.pdf" 300 None false run.2 = (run.1, w'') ∧
         fs w'' = fs run.2.
Proof.
  intros run.
  assert (∃ saved, run = (Ok saved, run.2)) as [saved Hrun]
    by (eexists; vm_compute; reflexivity).
  assert ((Path.splitext "docs/report.pdf").2 ≠ "") as Hext
    by (vm_compute; done).
  destruct (render_twice _ _ _ _ _ _ _ Hext Hrun) as (w'' & Hrun2 & Hsame).
  exists w''. split; [|exact Hsame].
  rewrite Hrun2. f_equal. by rewrite Hrun.
Defined.

Lemma render_page_fails_witness :
  ∃ w', render "docs/report.pdf" 300 None false Toy.broken_world
        = (Err FitzError, w') ∧
        is_Some (fs w' !! "docs/report/report_p01.png") ∧
        fs w' !! "docs/report/report.pdf" = None.
Proof.
  destruct (render_page_fails (H:=Toy.fitz) "docs/report.pdf" 300 None false
              Toy.broken_world (Toy.pdf "Pa!c") (list_byte_of_string "a!c")
              [1] 2 [3])
    as (w' & Hrun & _ & Hpngs & Hcopy & _).
  - vm_compute. reflexivity.
  - vm_compute. reflexivity.
  - vm_compute. reflexivity.
  - vm_compute. reflexivity.
  - intros p [->|[]%elem_of_nil]%elem_of_cons. vm_compute. eauto.
  - vm_compute. reflexivity.
  - vm_compute. done.
  - intros x. vm_compute. done.
  - intros p [->|[]%elem_of_nil]%elem_of_cons. vm_compute. done.
  - exists w'. split_and!; [exact Hrun| |exact Hcopy].
    destruct (Hpngs 1) as (png & _ & Hfile); [left|]. by exists (File png).
Defined.

Lemma render_no_extension_witness :
  ∃ e w', render "notes" 300 None false Toy.notes_world = (Err e, w') ∧
          fs w' = fs Toy.notes_world.
Proof.
  apply (render_no_extension _ _ _ _ _ (Toy.pdf "Pa")).
  - vm_compute. reflexivity.
  - done.
  - vm_compute. reflexivity.
  - vm_compute. reflexivity.
  - vm_compute. reflexivity.
Defined.

Lemma render_names_fixed_witness :
  let run := render "docs/report.pdf" 300 (Some "2-3") false
               Toy.report_world in
  let run2 := render "docs/report.pdf" 72 (Some "2-3") true
                Toy.report_world in
  run2.1 = run.1.
Proof.
  intros run run2.
  assert (∃ saved, run = (Ok saved, run.2)) as [saved Hrun]
    by (eexists; vm_compute; reflexivity).
  assert (∃ saved2, run2 = (Ok saved2, run2.2)) as [saved2 Hrun2]
    by (eexists; vm_compute; reflexivity).
  rewrite Hrun, Hrun2. simpl. f_equal.
  apply (render_names_fixed "docs/report.pdf" 300 (Some "2-3") false 72 true
           _ _ _ _ _ Hrun Hrun2).
Defined.

Lemma render_writes_in_folder_witness :
  "docs/report/report.png" = base_of "docs/report.pdf" ∨
  ∃ name, Py.contains "/" name = false ∧
          "docs/report/report.png" = Path.join (base_of "docs/report.pdf") name.
Proof.
  apply (render_writes_in_folder "docs/report.pdf" 300 (Some "2") false
           Toy.report_world
           (render "docs/report.pdf" 300 (Some "2") false Toy.report_world).1
           (render "docs/report.pdf" 300 (Some "2") false Toy.report_world).2).
  - by destruct (render _ _ _ _ _).
  - vm_compute. done.
Defined.

Lemma main_reports_files_witness :
  let run := main (λ _, "") (Args "docs/report.pdf" 300 (Some "2") false)
               Toy.report_world in
  stderr run.1 = [] ∧ (next_doc Toy.report_world ∉ open_docs run.2) ∧
  ∃ outputs,
    stdout run.1 = match outputs with
                   | [p] => ["Saved: " +:+ p]
                   | _ => "Saved:" :: ((λ p, "   " +:+ p) <$> outputs)
                   end ∧
    ∀ p, p ∈ outputs → ∃ png, fs run.2 !! p = Some (File png).
Proof.
  intros run.
  apply (main_reports_files (λ _, "")
           (Args "docs/report.pdf" 300 (Some "2") false) Toy.report_world).
  - apply surjective_pairing.
  - vm_compute. reflexivity.
Defined.

Lemma main_page_beyond_witness :
  main (λ _, "") (Args "docs/report.pdf" 300 (Some (Py.str 9)) false)
    Toy.report_world
  = (Shown [] ["Error: Invalid page number: " +:+ Py.str 9] 1,
     opened Toy.report_world).
Proof.
  apply (main_page_beyond (H:=Toy.fitz) _ _ _ (Toy.pdf "Pabc")
           (list_byte_of_string "abc")).
  - vm_compute. reflexivity.
  - vm_compute. reflexivity.
  - vm_compute. reflexivity.
  - lia.
  - vm_compute. intros [_ Hle]. by apply Hle.
Defined.
